(** * go-oceanconnect: the authenticated request pipeline

    A shallow embedding of [client.go] and [data_collection.go] of the
    go-oceanconnect client library, and the properties of its session
    handling, request dispatch, client construction and request building.

    Conventions of the embedding:
    - the methods of [*Client] are programs over a small set of actions on
      the shared client and the world (the mutex, the clock, the fields, the
      network call), so that the same program is run to its end by one
      goroutine and interleaved step by step by several;
    - the network and the clock are an explicit [World]; the remote service
      is a function of the world and the request;
    - a Go [(T, error)] is a pair of options where the source builds the
      pair itself, the three shapes of its contract for [Client.Do], and a
      sum for [http.NewRequest];
    - [http.Header] is a finite map from canonical keys to value lists;
    - integers are unbounded: no arithmetic of the source can overflow a
      64-bit [int], and instants are counted in nanoseconds. *)

From Stdlib Require Import ZArith Ascii DecimalString.
From stdpp Require Import base strings gmap list.

Open Scope Z_scope.

(** ** Strings and integers *)

(** [strconv.Itoa]: the decimal rendering of a Go [int]. *)
Definition Itoa (i : Z) : string := NilZero.string_of_int (Z.to_int i).

(** The last byte of a string, if it has one. *)
Fixpoint last_byte (s : string) : option ascii :=
  match s with
  | EmptyString => None
  | String a EmptyString => Some a
  | String _ rest => last_byte rest
  end.

(** Go's [s != ""]. *)
Definition nonempty (s : string) : bool :=
  match s with EmptyString => false | String _ _ => true end.

(** ** Errors *)

(** A Go [error] value, identified by its message. *)
Record error := errors_New { Error : string }.

(** ** Time *)

(** A [time.Time] instant and a [time.Duration], both counted in
    nanoseconds; the zero [time.Time] is instant [0]. *)
Definition Time := Z.
Definition Duration := Z.

Definition Second : Duration := 1000000000.
Definition Minute : Duration := 60 * Second.

Definition Time_Add (t : Time) (d : Duration) : Time := t + d.
Definition Time_Before (t u : Time) : bool := t <? u.

(** ** The configuration and the query structure (client.go, 20-55) *)

Record Config := {
  CertFile : string;
  CertKeyFile : string;
  URL : string;
  AppID : string;
  Secret : string;
  ManufacturerName : string;
  ManufacturerID : string;
  EndUserID : string;
  Location : string;
  DeviceType : string;
  Model : string
}.

Record GetDevicesStruct := {
  GatewayID : string;
  NodeType : string;
  PageNo : Z;
  PageSize : Z;
  Status : string;
  StartTime : string;
  EndTime : string;
  Sort : string
}.

(** ** The query string of GetDevices (client.go, 183-210) *)

Definition devicesPath : string := "/iocm/app/dm/v1.1.0/devices".

Definition getQueryStringForDeviceGet (dev : GetDevicesStruct) : string :=
  let s := devicesPath +:+ "?" in
  let s := if nonempty (GatewayID dev)
           then s +:+ ("gatewayId=" +:+ GatewayID dev +:+ "&") else s in
  let s := if nonempty (NodeType dev)
           then s +:+ ("nodeType=" +:+ NodeType dev +:+ "&") else s in
  let s := s +:+ ("pageNo=" +:+ Itoa (PageNo dev) +:+ "&") in
  let s := if negb (PageSize dev =? 0)
           then s +:+ ("pageSize=" +:+ Itoa (PageSize dev) +:+ "&") else s in
  let s := if nonempty (StartTime dev)
           then s +:+ ("startTime=" +:+ StartTime dev +:+ "&") else s in
  let s := if nonempty (EndTime dev)
           then s +:+ ("endTime=" +:+ EndTime dev +:+ "&") else s in
  let s := if nonempty (Status dev)
           then s +:+ ("status=" +:+ Status dev +:+ "&") else s in
  let s := if nonempty (Sort dev)
           then s +:+ ("sort=" +:+ Sort dev) else s in
  s.

(** The structured view of the same parameters: every parameter name, in
    the order of serialization, with its value when it is present.  This is
    the mapping "from parameter name to optional value" of the design notes,
    and it is compared with the source function below. *)
Definition opt_string (s : string) : option string :=
  if nonempty s then Some s else None.

Definition queryParams (dev : GetDevicesStruct) : list (string * option string) :=
  [ ("gatewayId", opt_string (GatewayID dev));
    ("nodeType", opt_string (NodeType dev));
    ("pageNo", Some (Itoa (PageNo dev)));
    ("pageSize", if PageSize dev =? 0 then None else Some (Itoa (PageSize dev)));
    ("startTime", opt_string (StartTime dev));
    ("endTime", opt_string (EndTime dev));
    ("status", opt_string (Status dev)) ].

(** One parameter, terminated by the separator; nothing when absent. *)
Definition renderParam (p : string * option string) : string :=
  match snd p with
  | Some v => fst p +:+ "=" +:+ v +:+ "&"
  | None => ""
  end.

Fixpoint renderParams (ps : list (string * option string)) : string :=
  match ps with
  | [] => ""
  | p :: rest => renderParam p +:+ renderParams rest
  end.

(** The last parameter, [sort], is written without a separator. *)
Definition renderSort (dev : GetDevicesStruct) : string :=
  match opt_string (Sort dev) with
  | Some v => "sort=" +:+ v
  | None => ""
  end.

Definition zeroGetDevices : GetDevicesStruct :=
  {| GatewayID := ""; NodeType := ""; PageNo := 0; PageSize := 0;
     Status := ""; StartTime := ""; EndTime := ""; Sort := "" |}.

(** ** TLS material (crypto/tls) *)

Module tls.

(** A loaded key pair: the certificate chain and the private key. *)
Record Certificate := {
  CertificateChain : list string;
  PrivateKey : string
}.

Record Config := {
  Certificates : list Certificate;
  InsecureSkipVerify : bool;
  NameToCertificate : gmap string Certificate
}.

(** What the file system and the X.509 parser do: library behaviour the
    client is run against. *)
Record Platform := {
  ReadFile : string -> string * option error;
  X509KeyPair : string -> string -> Certificate * option error;
  leafNames : Certificate -> list string
}.

Definition noCertificate : Certificate :=
  {| CertificateChain := []; PrivateKey := "" |}.

(** [tls.LoadX509KeyPair]: read the certificate file, then the key file,
    then parse the pair. *)
Definition LoadX509KeyPair (p : Platform) (certFile keyFile : string)
  : Certificate * option error :=
  match ReadFile p certFile with
  | (_, Some err) => (noCertificate, Some err)
  | (certPEMBlock, None) =>
      match ReadFile p keyFile with
      | (_, Some err) => (noCertificate, Some err)
      | (keyPEMBlock, None) => X509KeyPair p certPEMBlock keyPEMBlock
      end
  end.

(** [Config.BuildNameToCertificate]: every name of every certificate's
    leaf is mapped to that certificate, later certificates winning. *)
Definition BuildNameToCertificate (p : Platform) (cfg : Config) : Config :=
  {| Certificates := Certificates cfg;
     InsecureSkipVerify := InsecureSkipVerify cfg;
     NameToCertificate :=
       foldl (fun m cert => foldl (fun m name => <[name := cert]> m) m
                                  (leafNames p cert))
             ∅ (Certificates cfg) |}.

End tls.

(** ** HTTP messages (net/http, net/textproto) *)

Module http.

Definition MethodGet : string := "GET".
Definition MethodPost : string := "POST".
Definition StatusOK : Z := 200.

Definition byte_between (lo hi b : ascii) : bool :=
  ((N_of_ascii lo <=? N_of_ascii b) && (N_of_ascii b <=? N_of_ascii hi))%N.

Definition is_lower (b : ascii) : bool := byte_between "a" "z" b.
Definition is_upper (b : ascii) : bool := byte_between "A" "Z" b.
Definition is_digit (b : ascii) : bool := byte_between "0" "9" b.

(** The bytes of an RFC 7230 token: what a header name or a method may
    contain. *)
Definition validHeaderFieldByte (b : ascii) : bool :=
  is_lower b || is_upper b || is_digit b
  || existsb (Ascii.eqb b) (String.list_ascii_of_string "!#$%&'*+-.^_`|~").

Fixpoint all_bytes (p : ascii -> bool) (s : string) : bool :=
  match s with
  | EmptyString => true
  | String b rest => p b && all_bytes p rest
  end.

Definition to_upper (b : ascii) : ascii :=
  if is_lower b then ascii_of_N (N_of_ascii b - 32) else b.
Definition to_lower (b : ascii) : ascii :=
  if is_upper b then ascii_of_N (N_of_ascii b + 32) else b.

(** The first letter and every letter after a hyphen in upper case, the
    others in lower case. *)
Fixpoint canonical (upper : bool) (s : string) : string :=
  match s with
  | EmptyString => EmptyString
  | String b rest =>
      let b' := if upper then to_upper b else to_lower b in
      String b' (canonical (Ascii.eqb b' "-") rest)
  end.

(** [textproto.CanonicalMIMEHeaderKey]: a key with a byte outside the
    token bytes is left as it is. *)
Definition CanonicalMIMEHeaderKey (s : string) : string :=
  if all_bytes validHeaderFieldByte s then canonical true s else s.

(** [http.Header] is [map[string][]string]. *)
Abbreviation Header := (gmap string (list string)).

(** [Header.Add]: append to the values stored under the canonical key. *)
Definition Add (key value : string) (h : Header) : Header :=
  let k := CanonicalMIMEHeaderKey key in
  <[k := default [] (h !! k) ++ [value]]> h.

(** [Header.Values] and [Header.Get]. *)
Definition Values (key : string) (h : Header) : list string :=
  default [] (h !! CanonicalMIMEHeaderKey key).

Definition Get (key : string) (h : Header) : string :=
  match Values key h with
  | v :: _ => v
  | [] => ""
  end.

(** The value of a field of a JSON object: a string or a number. *)
Inductive JSON :=
| JString (s : string)
| JNumber (n : Z).

(** What a request carries: a JSON object as encoding/json writes a flat
    struct (the fields in declaration order under their tag names), or
    the credentials of the login exchange, whose wire format the
    specification leaves open. *)
Inductive Payload :=
| JSONBody (fields : list (string * JSON))
| Credentials (appId secret : string).

(** [http.Request]; [Body] is [None] for a nil reader. *)
Record Request := {
  Method : string;
  URL : string;
  Hdr : Header;
  Body : option Payload
}.

(** [http.Response]; the body is the raw text, not decoded. *)
Record Response := {
  StatusCode : Z;
  Status : string;
  RespBody : string
}.

(** What [Client.Do] returns.  Its contract leaves three shapes of
    [(resp, err)]: a response and no error, an error and no response, and
    both when a redirect policy refuses to go on. *)
Inductive Result :=
| Responded (resp : Response)
| Failed (err : error)
| Refused (resp : Response) (err : error).

Definition response_of (r : Result) : option Response :=
  match r with
  | Responded resp | Refused resp _ => Some resp
  | Failed _ => None
  end.

Definition error_of (r : Result) : option error :=
  match r with
  | Responded _ => None
  | Failed err | Refused _ err => Some err
  end.

(** [http.Transport] and [http.Client], as far as the client sets them. *)
Record Transport := { TLSClientConfig : tls.Config }.
Record Client := { ClientTransport : Transport }.

Definition validMethod (m : string) : bool :=
  nonempty m && all_bytes validHeaderFieldByte m.

(** [http.NewRequest]: an empty method means GET; the method must be a
    token and the URL must parse.  Parsing is [url.Parse], taken as
    [parseURL], which returns the error when there is one. *)
Definition NewRequest (parseURL : string -> option error)
    (method url : string) (body : option Payload)
  : Request + error :=
  let method := if nonempty method then method else MethodGet in
  if negb (validMethod method)
  then inr (errors_New ("net/http: invalid method " +:+ method))
  else match parseURL url with
       | Some err => inr err
       | None => inl {| Method := method; URL := url; Hdr := ∅;
                        Body := body |}
       end.

End http.


(** ** The client (client.go, 36-75) *)

(** [reqLock] is [true] while the mutex is held; [tokenExpires] starts at
    the zero time and [token] at the empty string. *)
Record Client := {
  c : http.Client;
  cfg : Config;
  token : string;
  tokenExpires : Time;
  reqLock : bool
}.

Definition NewClient (p : tls.Platform) (conf : Config)
  : option Client * option error :=
  match tls.LoadX509KeyPair p (CertFile conf) (CertKeyFile conf) with
  | (_, Some err) => (None, Some err)
  | (cert, None) =>
      let tlsConfig :=
        {| tls.Certificates := [cert];
           tls.InsecureSkipVerify := true;
           tls.NameToCertificate := ∅ |} in
      let tlsConfig := tls.BuildNameToCertificate p tlsConfig in
      (Some {| c := {| http.ClientTransport :=
                         {| http.TLSClientConfig := tlsConfig |} |};
               cfg := conf;
               token := "";
               tokenExpires := 0;
               reqLock := false |},
       None)
  end.

(** ** The world a client runs in *)

(** Which code path issued a network call: the login exchange or the
    primary call of a dispatch. *)
Inductive Origin := ByLogin | ByDispatch.

Definition same_origin (a b : Origin) : bool :=
  match a, b with
  | ByLogin, ByLogin | ByDispatch, ByDispatch => true
  | _, _ => false
  end.

(** What an instrumented transport observes: a request leaving and its
    result coming back, each with the clock reading. *)
Inductive Event :=
| Sent (o : Origin) (at_time : Time) (req : http.Request)
| Received (o : Origin) (at_time : Time) (res : http.Result).

Record World := {
  now : Time;
  wire : list Event
}.

(** [RegistrationReply] (data_collection.go, 45-50). *)
Record RegistrationReply := {
  VerifyCode : string;
  DeviceID : string;
  Timeout : N;
  Psk : string
}.

(** What the client is run against: the remote service, which answers a
    request after some time as a function of what happened so far; the
    library's URL parser and JSON decoders; and the path of the
    authentication endpoint. *)
Record Env := {
  remote : World -> http.Request -> Duration * http.Result;
  parseURL : string -> option error;
  loginPath : string;
  decodeLogin : string -> (string * Z) * option error;
  decodeRegistrationReply : string -> RegistrationReply * option error
}.

(** ** Programs over the shared client *)

(** What a method of [*Client] does to the shared client and the world:
    the mutex, the clock, the fields, and the call [c.c.Do]. *)
Inductive Action : Type -> Type :=
| Lock : Action unit
| Unlock : Action unit
| Now : Action Time
| Get_cfg : Action Config
| Get_token : Action string
| Get_tokenExpires : Action Time
| SetSession (tok : string) (expires : Time) : Action unit
| Do (o : Origin) (req : http.Request) : Action http.Result.

Inductive Prog (A : Type) : Type :=
| Ret (a : A)
| Act {X : Type} (act : Action X) (k : X -> Prog A).

Arguments Ret {A} a.
Arguments Act {A X} act k.

Fixpoint bind {A B : Type} (p : Prog A) (f : A -> Prog B) : Prog B :=
  match p with
  | Ret a => f a
  | Act act k => Act act (fun x => bind (k x) f)
  end.

Definition perform {X : Type} (act : Action X) : Prog X := Act act Ret.

(** [defer]: the deferred action runs when the body returns. *)
Definition defer {A : Type} (d : Action unit) (body : Prog A) : Prog A :=
  bind body (fun r => Act d (fun _ => Ret r)).

Declare Scope prog_scope.
Delimit Scope prog_scope with prog.
Bind Scope prog_scope with Prog.

Notation "x <- p ;; q" := (bind p (fun x => q))
  (at level 100, p at next level, right associativity) : prog_scope.
Notation "p ;; q" := (bind p (fun _ => q))
  (at level 100, right associativity) : prog_scope.

Open Scope prog_scope.

(** ** Login *)

Definition is2xx (code : Z) : bool := (200 <=? code) && (code <? 300).

(** Modelled from the spec: the method [Login] of [*Client], which
    [doRequest] calls and whose source file is missing.  It performs one
    exchange with the authentication endpoint, a POST to a fixed path with
    the application identifier and secret as payload.  A transport error, a
    non-2xx status and an undecodable body are failures that leave the
    session as it is.  On success the token and the expiry are replaced
    together by what the server returned, the expiry being the number of
    seconds granted, counted from the clock reading after the exchange. *)
Definition Login (E : Env) : Prog (option error) :=
  conf <- perform Get_cfg ;;
  res <- perform (Do ByLogin
           {| http.Method := http.MethodPost;
              http.URL := URL conf +:+ loginPath E;
              http.Hdr := ∅;
              http.Body := Some (http.Credentials (AppID conf) (Secret conf)) |}) ;;
  match res with
  | http.Failed err | http.Refused _ err => Ret (Some err)
  | http.Responded resp =>
      if negb (is2xx (http.StatusCode resp))
      then Ret (Some (errors_New ("invalid response code: " +:+ http.Status resp)))
      else match decodeLogin E (http.RespBody resp) with
           | (_, Some err) => Ret (Some err)
           | ((tok, seconds), None) =>
               t <- perform Now ;;
               perform (SetSession tok (Time_Add t (seconds * Second))) ;;
               Ret None
           end
  end.

(** ** Dispatch (client.go, 77-98) *)

Definition doRequest (E : Env) (req : http.Request) : Prog http.Result :=
  perform Lock ;;
  defer Unlock (
    expires <- perform Get_tokenExpires ;;
    t <- perform Now ;;
    err <- (if Time_Before expires (Time_Add t (Minute * 5))
            then Login E
            else Ret None) ;;
    match err with
    | Some err => Ret (http.Failed err)
    | None =>
        conf <- perform Get_cfg ;;
        tok <- perform Get_token ;;
        let h := http.Add "app_key" (AppID conf) (http.Hdr req) in
        let h := http.Add "Authorization" tok h in
        let h := http.Add "Content-Type" "application/json" h in
        perform (Do ByDispatch
          {| http.Method := http.Method req;
             http.URL := http.URL req;
             http.Hdr := h;
             http.Body := http.Body req |})
    end).

Definition request (E : Env) (method urlStr : string)
    (body : option http.Payload) : Prog http.Result :=
  conf <- perform Get_cfg ;;
  match http.NewRequest (parseURL E) method (URL conf +:+ urlStr) body with
  | inr err => Ret (http.Failed err)
  | inl r => doRequest E r
  end.

(** ** RegisterDevice (data_collection.go, 52-89) *)

Module regDevice.

Record t := {
  VerifyCode : string;
  NodeID : string;
  Timeout : N;
  EndUserID : string
}.

(** [json.Marshal] of the struct: the four fields under their tags.  No
    field has a type that encoding/json refuses, so no error arises. *)
Definition Marshal (b : t) : http.Payload * option error :=
  (http.JSONBody
     [ ("verifyCode", http.JString (VerifyCode b));
       ("nodeId", http.JString (NodeID b));
       ("timeout", http.JNumber (Z.of_N (Timeout b)));
       ("endUserId", http.JString (EndUserID b)) ],
   None).

End regDevice.

Definition RegisterDevice (E : Env) (imei : string) (timeoutV : list N)
  : Prog (option RegistrationReply * option error) :=
  let timeout :=
    match timeoutV with
    | first :: _ => first
    | [] => 0%N
    end in
  conf <- perform Get_cfg ;;
  let b := {| regDevice.VerifyCode := imei;
              regDevice.NodeID := imei;
              regDevice.Timeout := timeout;
              regDevice.EndUserID := EndUserID conf |} in
  match regDevice.Marshal b with
  | (_, Some err) => Ret (None, Some err)
  | (body, None) =>
      res <- request E http.MethodPost
               ("/iocm/app/reg/v1.2.0/devices?appId=" +:+ AppID conf)
               (Some body) ;;
      match res with
      | http.Failed err | http.Refused _ err => Ret (None, Some err)
      | http.Responded resp =>
          if negb (http.StatusCode resp =? http.StatusOK)
          then Ret (None, Some (errors_New
                      ("invalid response code: " +:+ http.Status resp)))
          else match decodeRegistrationReply E (http.RespBody resp) with
               | (_, Some err) => Ret (None, Some err)
               | (d, None) => Ret (Some d, None)
               end
      end
  end.

(** ** One goroutine: running a program to its end *)

Definition set_reqLock (held : bool) (cl : Client) : Client :=
  {| c := c cl; cfg := cfg cl; token := token cl;
     tokenExpires := tokenExpires cl; reqLock := held |}.

Definition set_session (tok : string) (expires : Time) (cl : Client) : Client :=
  {| c := c cl; cfg := cfg cl; token := tok;
     tokenExpires := expires; reqLock := reqLock cl |}.

(** The world after a network call that took [d] and came back with
    [res]: both events are on the wire and the clock has moved on. *)
Definition exchanged (o : Origin) (req : http.Request) (d : Duration)
    (res : http.Result) (w : World) : World :=
  {| now := now w + Z.max 0 d;
     wire := wire w ++ [Sent o (now w) req;
                        Received o (now w + Z.max 0 d) res] |}.

(** [c.c.Do]: the request leaves, the remote service answers after its
    delay, and the result comes back. *)
Definition roundTrip (E : Env) (o : Origin) (req : http.Request) (w : World)
  : http.Result * World :=
  let '(d, res) := remote E w req in
  (res, exchanged o req d res w).

(** One action.  [None]: the goroutine does not go on, because the mutex is
    held and nobody else runs ([Lock]), or because unlocking a mutex that is
    not locked is a fatal error ([Unlock]). *)
Definition exec (E : Env) {X : Type} (act : Action X) (cl : Client) (w : World)
  : option (X * Client * World) :=
  match act in Action X return option (X * Client * World) with
  | Lock => if reqLock cl then None else Some (tt, set_reqLock true cl, w)
  | Unlock => if reqLock cl then Some (tt, set_reqLock false cl, w) else None
  | Now => Some (now w, cl, w)
  | Get_cfg => Some (cfg cl, cl, w)
  | Get_token => Some (token cl, cl, w)
  | Get_tokenExpires => Some (tokenExpires cl, cl, w)
  | SetSession tok expires => Some (tt, set_session tok expires cl, w)
  | Do o req => let '(res, w') := roundTrip E o req w in Some (res, cl, w')
  end.

Fixpoint run (E : Env) {A : Type} (p : Prog A) (cl : Client) (w : World)
  : option (A * Client * World) :=
  match p with
  | Ret a => Some (a, cl, w)
  | Act act k =>
      match exec E act cl w with
      | None => None
      | Some (x, cl', w') => run E (k x) cl' w'
      end
  end.

(** ** A sequence of dispatch calls *)

(** Time passing with nothing on the wire. *)
Definition idle (d : Duration) (w : World) : World :=
  {| now := now w + Z.max 0 d; wire := wire w |}.

(** One served call: the client and the world when the call starts, what
    it returns, and the client and the world when it returns. *)
Record Served := {
  asked : http.Request;
  client_before : Client;
  world_before : World;
  returned : http.Result;
  client_after : Client;
  world_after : World
}.

(** The calls are made one after the other, each after its idle time.  The
    history ends early only if a call does not return. *)
Fixpoint history (E : Env) (calls : list (Duration * http.Request))
    (cl : Client) (w : World) : list Served :=
  match calls with
  | [] => []
  | (d, req) :: rest =>
      let w0 := idle d w in
      match run E (doRequest E req) cl w0 with
      | None => []
      | Some (res, cl', w') =>
          {| asked := req;
             client_before := cl; world_before := w0; returned := res;
             client_after := cl'; world_after := w' |}
          :: history E rest cl' w'
      end
  end.

(** What a call put on the wire. *)
Definition new_events (h : Served) : list Event :=
  drop (length (wire (world_before h))) (wire (world_after h)).

Definition is_sent (o : Origin) (e : Event) : bool :=
  match e with
  | Sent o' _ _ => same_origin o' o
  | Received _ _ _ => false
  end.

(** What has been put on the wire since the world [w]. *)
Definition since (w w' : World) : list Event :=
  drop (length (wire w)) (wire w').

(** The number of login exchanges, and of primary calls, on a wire. *)
Definition logins (evs : list Event) : nat :=
  length (filter (fun e => is_sent ByLogin e = true) evs).
Definition primaries (evs : list Event) : nat :=
  length (filter (fun e => is_sent ByDispatch e = true) evs).

(** The Authorization header of each primary call on a wire. *)
Definition authorizations (evs : list Event) : list string :=
  omap (fun e => match e with
                 | Sent ByDispatch _ req =>
                     Some (http.Get "Authorization" (http.Hdr req))
                 | _ => None
                 end) evs.

(** The check of [doRequest]: the recorded expiry is before now plus five
    minutes. *)
Definition stale (cl : Client) (w : World) : bool :=
  Time_Before (tokenExpires cl) (Time_Add (now w) (Minute * 5)).

(** ** Several goroutines on one client *)

(** A goroutine is running a program, or waiting for the result of a
    network call that is under way. *)
Inductive Thread (A : Type) : Type :=
| Running (p : Prog A)
| Waiting (o : Origin) (ready : Time) (res : http.Result)
          (k : http.Result -> Prog A).

Arguments Running {A} p.
Arguments Waiting {A} o ready res k.

Definition resume {A X : Type} (k : X -> Prog A)
    (r : option (X * Client * World)) : option (Thread A * Client * World) :=
  match r with
  | Some (x, cl, w) => Some (Running (k x), cl, w)
  | None => None
  end.

(** One step of one goroutine.  A network call takes two steps, the request
    leaving and the result coming back, and other goroutines may step in
    between; every other action is one step.  The clock moves only while a
    network call is under way.  [None]: the goroutine has returned, or
    cannot step now. *)
Definition thread_step (E : Env) {A : Type} (t : Thread A)
    (cl : Client) (w : World) : option (Thread A * Client * World) :=
  match t with
  | Running (Ret _) => None
  | Running (Act act k) =>
      match act in Action X
            return (X -> Prog A) -> option (Thread A * Client * World) with
      | Do o req => fun k =>
          let '(d, res) := remote E w req in
          Some (Waiting o (now w + Z.max 0 d) res k, cl,
                {| now := now w; wire := wire w ++ [Sent o (now w) req] |})
      | act' => fun k => resume k (exec E act' cl w)
      end k
  | Waiting o ready res k =>
      let t := Z.max (now w) ready in
      Some (Running (k res), cl,
            {| now := t; wire := wire w ++ [Received o t res] |})
  end.

Record System := {
  shared : Client;
  world : World;
  threads : list (Thread http.Result)
}.

(** Goroutine [i] takes a step. *)
Definition sys_step (E : Env) (i : nat) (s : System) : option System :=
  match threads s !! i with
  | None => None
  | Some t =>
      match thread_step E t (shared s) (world s) with
      | None => None
      | Some (t', cl', w') =>
          Some {| shared := cl'; world := w'; threads := <[i := t']> (threads s) |}
      end
  end.

(** An interleaving: which goroutine steps, step after step. *)
Fixpoint interleave (E : Env) (sched : list nat) (s : System) : option System :=
  match sched with
  | [] => Some s
  | i :: rest =>
      match sys_step E i s with
      | None => None
      | Some s' => interleave E rest s'
      end
  end.

(** [N] concurrent dispatch calls on one client. *)
Definition concurrent (E : Env) (reqs : list http.Request)
    (cl : Client) (w : World) : System :=
  {| shared := cl; world := w;
     threads := map (fun req => Running (doRequest E req)) reqs |}.

Definition result_of {A : Type} (t : Thread A) : option A :=
  match t with
  | Running (Ret a) => Some a
  | _ => None
  end.



(** ** Notions the statements use *)

(** The request of the login exchange, and what a result of it grants: a
    token with its lifetime in seconds, or the error of the failure. *)
Definition loginRequest (E : Env) (conf : Config) : http.Request :=
  {| http.Method := http.MethodPost;
     http.URL := URL conf +:+ loginPath E;
     http.Hdr := ∅;
     http.Body := Some (http.Credentials (AppID conf) (Secret conf)) |}.

Definition granted (E : Env) (res : http.Result) : (string * Z) + error :=
  match res with
  | http.Failed err | http.Refused _ err => inr err
  | http.Responded resp =>
      if negb (is2xx (http.StatusCode resp))
      then inr (errors_New ("invalid response code: " +:+ http.Status resp))
      else match decodeLogin E (http.RespBody resp) with
           | (_, Some err) => inr err
           | (grant, None) => inl grant
           end
  end.

(** The request as the primary call sends it: the three headers added to
    the ones it had. *)
Definition withHeaders (appID tok : string) (req : http.Request) : http.Request :=
  {| http.Method := http.Method req;
     http.URL := http.URL req;
     http.Hdr := http.Add "Content-Type" "application/json"
                   (http.Add "Authorization" tok
                      (http.Add "app_key" appID (http.Hdr req)));
     http.Body := http.Body req |}.

(** What a dispatch call comes to on a client whose mutex is free: the
    result, the client and the world it leaves. *)
Definition dispatch (E : Env) (req : http.Request) (cl : Client) (w : World)
  : http.Result * Client * World :=
  if stale cl w
  then
    let '(lres, w1) := roundTrip E ByLogin (loginRequest E (cfg cl)) w in
    match granted E lres with
    | inr err => (http.Failed err, cl, w1)
    | inl (tok, seconds) =>
        let '(res, w2) :=
          roundTrip E ByDispatch (withHeaders (AppID (cfg cl)) tok req) w1 in
        (res, set_session tok (Time_Add (now w1) (seconds * Second)) cl, w2)
    end
  else
    let '(res, w2) :=
      roundTrip E ByDispatch (withHeaders (AppID (cfg cl)) (token cl) req) w in
    (res, cl, w2).

(** The three ways a dispatch call goes: the token is fresh and the
    primary call is made; the token is stale and the login fails; the token
    is stale, the login succeeds and the primary call is made. *)
Inductive Dispatched (E : Env) (req : http.Request) (cl : Client) (w : World)
  : http.Result -> Client -> World -> Prop :=
| dispatched_fresh d res :
    stale cl w = false ->
    remote E w (withHeaders (AppID (cfg cl)) (token cl) req) = (d, res) ->
    Dispatched E req cl w res cl
      (exchanged ByDispatch (withHeaders (AppID (cfg cl)) (token cl) req) d res w)
| dispatched_denied d lres err :
    stale cl w = true ->
    remote E w (loginRequest E (cfg cl)) = (d, lres) ->
    granted E lres = inr err ->
    Dispatched E req cl w (http.Failed err) cl
      (exchanged ByLogin (loginRequest E (cfg cl)) d lres w)
| dispatched_renewed d lres tok seconds w1 d' res :
    stale cl w = true ->
    remote E w (loginRequest E (cfg cl)) = (d, lres) ->
    granted E lres = inl (tok, seconds) ->
    w1 = exchanged ByLogin (loginRequest E (cfg cl)) d lres w ->
    remote E w1 (withHeaders (AppID (cfg cl)) tok req) = (d', res) ->
    Dispatched E req cl w res
      (set_session tok (Time_Add (now w1) (seconds * Second)) cl)
      (exchanged ByDispatch (withHeaders (AppID (cfg cl)) tok req) d' res w1).



(** The request [r] is the request [req] with the three headers added and
    nothing else changed: each value is appended under its canonical key,
    every other key of the header map is as it was, and so are the method,
    the URL and the body. *)
Definition carries (appID tok : string) (req r : http.Request) : Prop :=
  http.Values "app_key" (http.Hdr r)
  = http.Values "app_key" (http.Hdr req) ++ [appID]
  /\ http.Values "Authorization" (http.Hdr r)
     = http.Values "Authorization" (http.Hdr req) ++ [tok]
  /\ http.Values "Content-Type" (http.Hdr r)
     = http.Values "Content-Type" (http.Hdr req) ++ ["application/json"]
  /\ (forall k, k ∉ ["App_key"; "Authorization"; "Content-Type"] ->
        http.Hdr r !! k = http.Hdr req !! k)
  /\ http.Method r = http.Method req
  /\ http.URL r = http.URL req
  /\ http.Body r = http.Body req.

(** Calls served one after the other with no idle time in between. *)
Fixpoint serve (E : Env) (reqs : list http.Request) (cl : Client) (w : World)
  : option (list http.Result * Client * World) :=
  match reqs with
  | [] => Some ([], cl, w)
  | req :: rest =>
      match run E (doRequest E req) cl w with
      | None => None
      | Some (res, cl', w') =>
          match serve E rest cl' w' with
          | None => None
          | Some (ress, cl'', w'') => Some (res :: ress, cl'', w'')
          end
      end
  end.

(** The requests of the goroutines [order], in that order. *)
Definition pick (reqs : list http.Request) (order : list nat) : list http.Request :=
  omap (fun i => reqs !! i) order.





(** The actions on the mutex. *)
Definition locking {X : Type} (act : Action X) : bool :=
  match act with
  | Lock | Unlock => true
  | _ => false
  end.

(** A program that leaves the mutex alone. *)
Inductive Plain {A : Type} : Prog A -> Prop :=
| plain_Ret a : Plain (Ret a)
| plain_Act X (act : Action X) k :
    locking act = false -> (forall x, Plain (k x)) -> Plain (Act act k).

(** The lock discipline of a critical section: no [Lock], and a single
    [Unlock], after which the program returns. *)
Inductive Crit {A : Type} : Prog A -> Prop :=
| crit_Unlock k :
    (forall x, exists a, k x = Ret a) -> Crit (Act Unlock k)
| crit_Act X (act : Action X) k :
    locking act = false -> (forall x, Crit (k x)) -> Crit (Act act k).

(** A goroutine inside its critical section. *)
Definition inside {A : Type} (t : Thread A) : Prop :=
  match t with
  | Running p => Crit p
  | Waiting _ _ _ k => forall res, Crit (k res)
  end.

(** What a goroutine does if it is left to run alone to its end. *)
Definition complete (E : Env) {A : Type} (t : Thread A) (cl : Client) (w : World)
  : option (A * Client * World) :=
  match t with
  | Running p => run E p cl w
  | Waiting o ready res k =>
      let t := Z.max (now w) ready in
      run E (k res) cl {| now := t; wire := wire w ++ [Received o t res] |}
  end.

(** ** The serial view of an interleaving *)

(** What is settled in a state reached by [N] concurrent dispatch calls:
    the goroutines [order] have returned, in that order, and serving their
    requests one after the other from the initial client and world gives
    the results [ress] and leaves the client [clq] and the world [wq]. *)
Record Served_in_order (E : Env) (reqs : list http.Request)
    (cl0 : Client) (w0 : World) (s : System)
    (order : list nat) (ress : list http.Result) (clq : Client) (wq : World)
  : Prop := {
  ser_served : serve E (pick reqs order) cl0 w0 = Some (ress, clq, wq);
  ser_free : reqLock clq = false;
  ser_NoDup : NoDup order;
  ser_threads : length (threads s) = length reqs;
  ser_results : length ress = length order;
  ser_returned : forall j i, order !! j = Some i ->
    exists r, ress !! j = Some r /\ threads s !! i = Some (Running (Ret r))
}.

(** What the other goroutines are doing: either none has started and the
    state is the settled one, or one goroutine [i] is inside its critical
    section, holding the mutex, and left alone it would end as its call
    served from the settled state does. *)
Inductive Phase (E : Env) (reqs : list http.Request) (s : System)
    (order : list nat) (clq : Client) (wq : World) : Prop :=
| phase_quiet :
    shared s = clq ->
    world s = wq ->
    (forall i req, i ∉ order -> reqs !! i = Some req ->
       threads s !! i = Some (Running (doRequest E req))) ->
    Phase E reqs s order clq wq
| phase_busy i req t :
    i ∉ order ->
    reqs !! i = Some req ->
    threads s !! i = Some t ->
    inside t ->
    reqLock (shared s) = true ->
    complete E t (shared s) (world s) = run E (doRequest E req) clq wq ->
    (exists evs, wire (world s) = wire wq ++ evs) ->
    (forall j req', j ∉ order -> j <> i -> reqs !! j = Some req' ->
       threads s !! j = Some (Running (doRequest E req'))) ->
    Phase E reqs s order clq wq.

Definition serial_view (E : Env) (reqs : list http.Request)
    (cl0 : Client) (w0 : World) (s : System) : Prop :=
  exists order ress clq wq,
    Served_in_order E reqs cl0 w0 s order ress clq wq
    /\ Phase E reqs s order clq wq.

(** ** The other operations (client.go, 100-138; data_collection.go, 21-42
    and 91-137) *)

Definition MethodPut : string := "PUT".
Definition MethodDelete : string := "DELETE".
Definition StatusCreated : Z := 201.
Definition StatusNoContent : Z := 204.

(** The [client] field of a [Device]: nil, or the client whose method
    produced the device. *)
Inductive ClientPtr := nilClient | thisClient.

(** [Device] is declared in a file that is missing; what the operations here
    use of it is the unexported field [client], which the JSON decoder leaves
    alone, and the exported fields, taken together as [Info]. *)
Record Device (Info : Type) := {
  client : ClientPtr;
  info : Info
}.

Arguments client {Info} d.
Arguments info {Info} d.

(** [deviceResponse] (data_collection.go, 14-19). *)
Module deviceResponse.

Record t (Info : Type) := {
  Totalcount : Z;
  PageNo : Z;
  Pagesize : Z;
  Devices : list (Device Info)
}.

Arguments Totalcount {Info} t.
Arguments PageNo {Info} t.
Arguments Pagesize {Info} t.
Arguments Devices {Info} t.

End deviceResponse.

(** [Server] is declared in a file that is missing; Subscribe returns its
    zero value. *)
Inductive Server := zeroServer.

(** [DeleteDevice] (data_collection.go, 126-137). *)
Definition DeleteDevice (E : Env) (deviceID : string) : Prog (option error) :=
  res <- request E MethodDelete
           ("/iocm/app/dm/v1.1.0/devices/" +:+ deviceID) None ;;
  match res with
  | http.Failed err | http.Refused _ err => Ret (Some err)
  | http.Responded resp =>
      if negb (http.StatusCode resp =? StatusNoContent)
      then Ret (Some (errors_New ("invalid response code: " +:+ http.Status resp)))
      else Ret None
  end.

(** The body of [SetDeviceInfo] (data_collection.go, 92-110). *)
Module deviceInfoBody.

Record t := {
  Name : string;
  Mute : string;
  ManufacturerID : string;
  ManufacturerName : string;
  Location : string;
  DeviceType : string;
  ProtocolType : string;
  Model : string
}.

Definition Marshal (b : t) : http.Payload * option error :=
  (http.JSONBody
     [ ("name", http.JString (Name b));
       ("mute", http.JString (Mute b));
       ("manufacturerId", http.JString (ManufacturerID b));
       ("manufacturerName", http.JString (ManufacturerName b));
       ("location", http.JString (Location b));
       ("deviceType", http.JString (DeviceType b));
       ("protocolType", http.JString (ProtocolType b));
       ("model", http.JString (Model b)) ],
   None).

End deviceInfoBody.

(** [SetDeviceInfo] (data_collection.go, 91-124). *)
Definition SetDeviceInfo (E : Env) (deviceID name : string)
  : Prog (option error) :=
  conf <- perform Get_cfg ;;
  let b := {| deviceInfoBody.Name := name;
              deviceInfoBody.Mute := "FALSE";
              deviceInfoBody.ManufacturerID := ManufacturerID conf;
              deviceInfoBody.ManufacturerName := ManufacturerName conf;
              deviceInfoBody.Location := Location conf;
              deviceInfoBody.DeviceType := DeviceType conf;
              deviceInfoBody.ProtocolType := "CoAP";
              deviceInfoBody.Model := Model conf |} in
  match deviceInfoBody.Marshal b with
  | (_, Some err) => Ret (Some err)
  | (body, None) =>
      res <- request E MethodPut
               ("/iocm/app/dm/v1.2.0/devices/" +:+ deviceID +:+ "?appId="
                +:+ AppID conf)
               (Some body) ;;
      match res with
      | http.Failed err | http.Refused _ err => Ret (Some err)
      | http.Responded resp =>
          if negb (http.StatusCode resp =? StatusNoContent)
          then Ret (Some (errors_New
                      ("invalid response code: " +:+ http.Status resp)))
          else Ret None
      end
  end.

(** The body of [Subscribe] (data_collection.go, 23-29). *)
Module subscribeBody.

Record t := {
  NotifyType : string;
  CallbackURL : string
}.

Definition Marshal (b : t) : http.Payload * option error :=
  (http.JSONBody
     [ ("notifyType", http.JString (NotifyType b));
       ("callbackurl", http.JString (CallbackURL b)) ],
   None).

End subscribeBody.

(** [Subscribe] (data_collection.go, 21-42). *)
Definition Subscribe (E : Env) (url : string)
  : Prog (option Server * option error) :=
  let b := {| subscribeBody.NotifyType := "deviceDataChanged";
              subscribeBody.CallbackURL := url |} in
  match subscribeBody.Marshal b with
  | (_, Some err) => Ret (None, Some err)
  | (body, None) =>
      res <- request E http.MethodPost "/iocm/app/sub/v1.2.0/subscribe"
               (Some body) ;;
      match res with
      | http.Failed err | http.Refused _ err => Ret (None, Some err)
      | http.Responded resp =>
          if negb (http.StatusCode resp =? StatusCreated)
          then Ret (None, Some (errors_New
                      ("invalid response code: " +:+ http.Status resp)))
          else Ret (Some zeroServer, None)
      end
  end.

(** [GetDevice] (client.go, 100-115).  [decode] is the JSON decoder run on
    the response body for a device whose exported fields are zero. *)
Definition GetDevice {Info : Type} (decode : string -> Info * option error)
    (E : Env) (deviceID : string)
  : Prog (option (Device Info) * option error) :=
  res <- request E http.MethodGet
           ("/iocm/app/dm/v1.1.0/devices/" +:+ deviceID) None ;;
  match res with
  | http.Failed err | http.Refused _ err => Ret (None, Some err)
  | http.Responded resp =>
      if negb (http.StatusCode resp =? http.StatusOK)
      then Ret (None, Some (errors_New
                  ("invalid response code: " +:+ http.Status resp)))
      else match decode (http.RespBody resp) with
           | (_, Some err) => Ret (None, Some err)
           | (fields, None) =>
               Ret (Some {| client := thisClient; info := fields |}, None)
           end
  end.

(** The loop of [GetDevices]: every device of the page is bound to the
    client and appended to the result. *)
Definition bindDevices {Info : Type} (devs : list (Device Info))
  : list (Device Info) :=
  foldl (fun retdevs dev =>
           retdevs ++ [{| client := thisClient; info := info dev |}])
        [] devs.

(** [GetDevices] (client.go, 117-138).  [decode] is the JSON decoder run on
    the response body for a [deviceResponse]. *)
Definition GetDevices {Info : Type}
    (decode : string -> deviceResponse.t Info * option error)
    (E : Env) (dev : GetDevicesStruct)
  : Prog (list (Device Info) * option error) :=
  res <- request E http.MethodGet (getQueryStringForDeviceGet dev) None ;;
  match res with
  | http.Failed err | http.Refused _ err => Ret ([], Some err)
  | http.Responded resp =>
      if negb (http.StatusCode resp =? http.StatusOK)
      then Ret ([], Some (errors_New
                  ("invalid response code: " +:+ http.Status resp)))
      else match decode (http.RespBody resp) with
           | (_, Some err) => Ret ([], Some err)
           | (d, None) => Ret (bindDevices (deviceResponse.Devices d), None)
           end
  end.

(** ** Notions the further statements use *)

(** The last thing put on the wire since [w] is the answer [resp], with
    status [code], to a primary call. *)
Definition answered (w w' : World) (code : Z) (resp : http.Response) : Prop :=
  exists t, last (since w w') = Some (Received ByDispatch t (http.Responded resp))
            /\ http.StatusCode resp = code.

(** The error of an operation on an answer with an unexpected status. *)
Definition invalidResponseCode (resp : http.Response) : error :=
  errors_New ("invalid response code: " +:+ http.Status resp).

(** The header map of a primary call made through [request]. *)
Definition dispatchHeader (appID tok : string) : http.Header :=
  <["Content-Type" := ["application/json"]]>
    (<["Authorization" := [tok]]> (<["App_key" := [appID]]> ∅)).

(** How a primary call made through [request] looks: the method (GET for
    the empty method), the URL under the configured base, the body as given,
    and the three headers and no other. *)
Definition sent_as (method url : string) (body : option http.Payload)
    (appID tok : string) (r : http.Request) : Prop :=
  http.Method r = (if nonempty method then method else http.MethodGet)
  /\ http.URL r = url
  /\ http.Body r = body
  /\ http.Hdr r = dispatchHeader appID tok.



(** The program starts by taking the mutex. *)
Definition locks_first {A : Type} (p : Prog A) : bool :=
  match p with
  | Ret _ => false
  | Act act _ => match act with
                 | Lock => true
                 | _ => false
                 end
  end.

(** A goroutine that has not started its call, or has returned from it. *)
Definition outside (E : Env) (req : http.Request) (t : Thread http.Result) : Prop :=
  t = Running (doRequest E req) \/ is_Some (result_of t).

(** The network calls among the actions. *)
Definition calling {X : Type} (act : Action X) : bool :=
  match act with
  | Do _ _ => true
  | _ => false
  end.

(** The steps a goroutine still has before it returns are at most [n]; a
    network call counts for two. *)
Inductive Within {A : Type} : nat -> Prog A -> Prop :=
| within_Ret n a : Within n (Ret a)
| within_Do n o req k :
    (forall x, Within n (k x)) -> Within (S (S n)) (Act (Do o req) k)
| within_Act n X (act : Action X) k :
    calling act = false ->
    (forall x, Within n (k x)) -> Within (S n) (Act act k).

(** The query structure [dev] with its first two fields replaced. *)
Definition withGateway (gatewayID nodeType : string) (dev : GetDevicesStruct)
  : GetDevicesStruct :=
  {| GatewayID := gatewayID; NodeType := nodeType;
     PageNo := PageNo dev; PageSize := PageSize dev; Status := Status dev;
     StartTime := StartTime dev; EndTime := EndTime dev; Sort := Sort dev |}.

Definition thread_within {A : Type} (n : nat) (t : Thread A) : Prop :=
  match t with
  | Running p => Within n p
  | Waiting _ _ _ k => exists m, n = S m /\ forall res, Within m (k res)
  end.

(** ** Concrete inputs *)

Definition exampleConfig : Config :=
  {| CertFile := "client.crt"; CertKeyFile := "client.key";
     URL := "https://iot.example"; AppID := "app-1"; Secret := "s3cret";
     ManufacturerName := "Acme"; ManufacturerID := "acme";
     EndUserID := "user-7"; Location := "lab"; DeviceType := "meter";
     Model := "m1" |}.

(** The same with a key file that does not exist. *)
Definition noKeyConfig : Config :=
  {| CertFile := "client.crt"; CertKeyFile := "missing.key";
     URL := "https://iot.example"; AppID := "app-1"; Secret := "s3cret";
     ManufacturerName := "Acme"; ManufacturerID := "acme";
     EndUserID := "user-7"; Location := "lab"; DeviceType := "meter";
     Model := "m1" |}.

Definition respond (code : Z) (status body : string) : http.Result :=
  http.Responded {| http.StatusCode := code; http.Status := status;
                    http.RespBody := body |}.

(** A service that answers every request after one second: the login
    exchange with [loginReply], whose body is the token, granted for
    [lifetime] seconds, and every other request with [reply]. *)
Definition exampleEnv (loginReply : http.Result) (lifetime : Z)
    (reply : http.Result) : Env :=
  {| remote := fun _ req =>
       if String.eqb (http.URL req) "https://iot.example/login"
       then (Second, loginReply) else (Second, reply);
     parseURL := fun _ => None;
     loginPath := "/login";
     decodeLogin := fun body => ((body, lifetime), None);
     decodeRegistrationReply := fun body =>
       ({| VerifyCode := ""; DeviceID := body; Timeout := 0%N; Psk := "" |},
        None) |}.

(** The login succeeds with token T1, valid for an hour. *)
Definition hourEnv : Env :=
  exampleEnv (respond 200 "200 OK" "T1") 3600 (respond 200 "200 OK" "{}").

(** The login succeeds with token T1, valid for 100 seconds only. *)
Definition shortEnv : Env :=
  exampleEnv (respond 200 "200 OK" "T1") 100 (respond 200 "200 OK" "{}").

(** The login is refused. *)
Definition deniedEnv : Env :=
  exampleEnv (respond 401 "401 Unauthorized" "") 3600 (respond 200 "200 OK" "{}").


Definition examplePlatform : tls.Platform :=
  {| tls.ReadFile := fun path =>
       if String.eqb path "client.crt" then ("CERT", None)
       else if String.eqb path "client.key" then ("KEY", None)
       else ("", Some (errors_New "open: no such file or directory"));
     tls.X509KeyPair := fun cert key =>
       if String.eqb cert "CERT" && String.eqb key "KEY"
       then ({| tls.CertificateChain := [cert]; tls.PrivateKey := key |}, None)
       else (tls.noCertificate,
             Some (errors_New "tls: failed to find any PEM data"));
     tls.leafNames := fun _ => ["iot.example"] |}.

(** A client right after construction: no token, the zero expiry. *)
Definition freshClient : Client :=
  {| c := {| http.ClientTransport :=
               {| http.TLSClientConfig :=
                    {| tls.Certificates := [];
                       tls.InsecureSkipVerify := true;
                       tls.NameToCertificate := ∅ |} |} |};
     cfg := exampleConfig; token := ""; tokenExpires := 0; reqLock := false |}.

Definition exampleWorld : World := {| now := 1000 * Second; wire := [] |}.

(** Scenario A of the specification: a first call, and a second one ten
    seconds after the first has returned. *)
Definition scenarioA (req : http.Request) : list (Duration * http.Request) :=
  [(0, req); (10 * Second, req)].

(** Two goroutines, the first taking [n] steps and then the second [m]. *)
Definition inTurn (n m : nat) : list nat :=
  replicate n 0%nat ++ replicate m 1%nat.

Definition exampleRequest : http.Request :=
  {| http.Method := http.MethodGet;
     http.URL := "https://iot.example/iocm/app/dm/v1.1.0/devices/d1";
     http.Hdr := ∅; http.Body := None |}.

(** A client that holds token T1, which expires 200 seconds after the
    clock reading of [exampleWorld]. *)
Definition expiringClient : Client :=
  set_session "T1" (Time_Add (1000 * Second) (200 * Second)) freshClient.

(** The login returns token T2, valid for an hour. *)
Definition renewEnv : Env :=
  exampleEnv (respond 200 "200 OK" "T2") 3600 (respond 200 "200 OK" "{}").

(** Per served call: how many logins it made, the Authorization header of
    its primary call if it made one, and the token and the expiry the client
    holds afterwards. *)
Definition summary (h : Served)
  : nat * list string * string * Time :=
  (logins (new_events h), authorizations (new_events h),
   token (client_after h), tokenExpires (client_after h)).

(** Two concurrent calls on a fresh client. *)
Definition twoCalls (E : Env) : System :=
  concurrent E [exampleRequest; exampleRequest] freshClient exampleWorld.

(** The state in which both calls have returned when the login is granted
    for an hour: the first call logs in (13 steps), the second does not
    (8 steps). *)
Definition bothReturned : System :=
  default (twoCalls hourEnv) (interleave hourEnv (inTurn 13 8) (twoCalls hourEnv)).

(** The login succeeds and the service answers the primary call with
    204, with 201, and with a device page. *)
Definition noContentEnv : Env :=
  exampleEnv (respond 200 "200 OK" "T1") 3600 (respond 204 "204 No Content" "").

Definition createdEnv : Env :=
  exampleEnv (respond 200 "200 OK" "T1") 3600 (respond 201 "201 Created" "").

(** The client and the world a run leaves, for a run that returns. *)
Definition client_of {A : Type} (r : option (A * Client * World)) : Client :=
  match r with
  | Some (_, cl, _) => cl
  | None => freshClient
  end.

Definition world_of {A : Type} (r : option (A * Client * World)) : World :=
  match r with
  | Some (_, _, w) => w
  | None => exampleWorld
  end.

(** The client that NewClient constructs on the example platform. *)
Definition builtClient : Client :=
  default freshClient (fst (NewClient examplePlatform exampleConfig)).

(** A decoder of devices whose exported fields are the body text, and one
    of pages that holds two devices. *)
Definition textDevice (body : string) : string * option error := (body, None).

Definition twoDevices (body : string)
  : deviceResponse.t string * option error :=
  ({| deviceResponse.Totalcount := 2; deviceResponse.PageNo := 0;
      deviceResponse.Pagesize := 2;
      deviceResponse.Devices :=
        [ {| client := nilClient; info := "d1" |};
          {| client := nilClient; info := "d2" |} ] |},
   None).

(** * Properties *)

(** ** Strings *)

Lemma last_byte_cons (a : ascii) (s : string) :
  last_byte (String a s) = match last_byte s with
                           | Some b => Some b
                           | None => Some a
                           end.
Proof.
  revert a. induction s as [|b s IH]; intros a; [reflexivity|].
  change (last_byte (String a (String b s))) with (last_byte (String b s)).
  rewrite (IH b). now destruct (last_byte s).
Qed.

Lemma last_byte_app (s t : string) :
  last_byte (s +:+ t) = match last_byte t with
                        | Some b => Some b
                        | None => last_byte s
                        end.
Proof.
  induction s as [|a s IH].
  - change ("" +:+ t) with t. now destruct (last_byte t).
  - change (String a s +:+ t) with (String a (s +:+ t)).
    rewrite !last_byte_cons, IH.
    now destruct (last_byte t), (last_byte s).
Qed.

Lemma app_assoc_string (s t u : string) : (s +:+ t) +:+ u = s +:+ (t +:+ u).
Proof.
  induction s as [|a s IH]; [reflexivity|].
  change (String a ((s +:+ t) +:+ u) = String a (s +:+ (t +:+ u))).
  now rewrite IH.
Qed.

Lemma app_empty_r (s : string) : s +:+ "" = s.
Proof.
  induction s as [|a s IH]; [reflexivity|].
  change (String a (s +:+ "") = String a s). now rewrite IH.
Qed.

(** The source function and the structured rendering agree. *)
Lemma getQueryString_render (dev : GetDevicesStruct) :
  getQueryStringForDeviceGet dev
  = devicesPath +:+ "?" +:+ (renderParams (queryParams dev) +:+ renderSort dev).
Proof.
  unfold getQueryStringForDeviceGet, queryParams, renderSort, renderParams,
    renderParam, opt_string.
  cbn [fst snd].
  destruct (nonempty (GatewayID dev)), (nonempty (NodeType dev)),
    (PageSize dev =? 0), (nonempty (StartTime dev)), (nonempty (EndTime dev)),
    (nonempty (Status dev)), (nonempty (Sort dev));
    cbn [negb];
    repeat rewrite app_assoc_string; cbn [String.append];
    repeat rewrite app_empty_r; reflexivity.
Qed.

Lemma last_byte_None (s : string) : last_byte s = None -> s = "".
Proof.
  destruct s as [|a s]; [reflexivity|].
  rewrite last_byte_cons. now destruct (last_byte s).
Qed.

Lemma append_nonempty_r (s t : string) : t <> "" -> s +:+ t <> "".
Proof.
  intros Ht Hst. apply Ht, last_byte_None.
  assert (H : last_byte (s +:+ t) = None) by now rewrite Hst.
  rewrite last_byte_app in H. now destruct (last_byte t).
Qed.

Lemma renderParam_last (p : string * option string) :
  last_byte (renderParam p)
  = match snd p with Some _ => Some "&"%char | None => None end.
Proof.
  unfold renderParam. destruct (snd p) as [v|]; [|reflexivity].
  now rewrite !last_byte_app.
Qed.

Lemma renderParams_last (ps : list (string * option string)) :
  last_byte (renderParams ps) = None \/ last_byte (renderParams ps) = Some "&"%char.
Proof.
  induction ps as [|p ps IH]; [now left|].
  cbn [renderParams]. rewrite last_byte_app, renderParam_last.
  destruct IH as [-> | ->]; [|now right].
  destruct (snd p); [now right | now left].
Qed.

Lemma queryParams_rendered (dev : GetDevicesStruct) :
  renderParams (queryParams dev) <> "".
Proof.
  unfold queryParams. cbn [renderParams].
  do 2 apply append_nonempty_r.
  unfold renderParam at 1. cbn [fst snd]. discriminate.
Qed.

(** C8, as stated, fails: with every optional parameter absent the query
    string of GetDevices ends in the separator. *)
Lemma getQueryString_trailing_separator :
  getQueryStringForDeviceGet zeroGetDevices
  = "/iocm/app/dm/v1.1.0/devices?pageNo=0&"
  /\ last_byte (getQueryStringForDeviceGet zeroGetDevices) = Some "&"%char.
Proof. split; reflexivity. Qed.

(** C8, amended: for every input the query string of GetDevices is the
    path, a question mark, and the parameters that are present, each as
    name=value, in the fixed order gatewayId, nodeType, pageNo, pageSize,
    startTime, endTime, status, sort.  pageNo is always present, so the part
    after the question mark is never empty.  Every parameter but sort is
    followed by a separator, so the string ends in the separator when Sort is
    empty, and in the last byte of Sort otherwise. *)
Theorem getQueryString_shape (dev : GetDevicesStruct) :
  getQueryStringForDeviceGet dev
  = devicesPath +:+ "?" +:+ (renderParams (queryParams dev) +:+ renderSort dev)
  /\ map fst (queryParams dev)
     = ["gatewayId"; "nodeType"; "pageNo"; "pageSize"; "startTime"; "endTime";
        "status"]
  /\ renderParams (queryParams dev) <> ""
  /\ last_byte (getQueryStringForDeviceGet dev)
     = if nonempty (Sort dev) then last_byte (Sort dev) else Some "&"%char.
Proof.
  split; [apply getQueryString_render|].
  split; [reflexivity|].
  split; [apply queryParams_rendered|].
  rewrite getQueryString_render, !last_byte_app.
  unfold renderSort, opt_string.
  destruct (Sort dev) as [|a s] eqn:HS; cbn [nonempty].
  - change (last_byte "") with (@None ascii).
    destruct (renderParams_last (queryParams dev)) as [H | H]; rewrite H.
    + apply last_byte_None in H. now apply queryParams_rendered in H.
    + reflexivity.
  - rewrite last_byte_app, last_byte_cons.
    now destruct (last_byte s).
Qed.

(** ** Construction *)

Lemma NewClient_error (p : tls.Platform) (conf : Config) (err : error) :
  snd (tls.LoadX509KeyPair p (CertFile conf) (CertKeyFile conf)) = Some err ->
  NewClient p conf = (None, Some err).
Proof.
  unfold NewClient.
  destruct (tls.LoadX509KeyPair p (CertFile conf) (CertKeyFile conf))
    as [cert [e|]]; cbn [snd]; intros H; [now inversion H | discriminate].
Qed.

(** C7: when the certificate file cannot be read, or the key file cannot be
    read, or the pair read from them does not parse, NewClient returns that
    error and no client. *)
Theorem NewClient_bad_key_pair (p : tls.Platform) (conf : Config) (err : error) :
  snd (tls.ReadFile p (CertFile conf)) = Some err
  \/ (snd (tls.ReadFile p (CertFile conf)) = None
      /\ snd (tls.ReadFile p (CertKeyFile conf)) = Some err)
  \/ (snd (tls.ReadFile p (CertFile conf)) = None
      /\ snd (tls.ReadFile p (CertKeyFile conf)) = None
      /\ snd (tls.X509KeyPair p (fst (tls.ReadFile p (CertFile conf)))
                (fst (tls.ReadFile p (CertKeyFile conf)))) = Some err) ->
  NewClient p conf = (None, Some err).
Proof.
  intros H. apply NewClient_error. unfold tls.LoadX509KeyPair.
  destruct (tls.ReadFile p (CertFile conf)) as [certPEM [e1|]];
    destruct (tls.ReadFile p (CertKeyFile conf)) as [keyPEM [e2|]];
    cbn [fst snd] in *;
    destruct H as [H | [[H1 H2] | (H1 & H2 & H3)]];
    try discriminate; auto.
Qed.

Lemma NewClient_bad_key_pair_witness :
  NewClient examplePlatform noKeyConfig
  = (None, Some (errors_New "open: no such file or directory")).
Proof.
  apply (NewClient_bad_key_pair examplePlatform noKeyConfig).
  right. left. split; reflexivity.
Defined.

(** C9: the TLS configuration of every client that NewClient constructs has
    InsecureSkipVerify set. *)
Theorem NewClient_skips_verification (p : tls.Platform) (conf : Config)
    (cl : Client) (err : option error) :
  NewClient p conf = (Some cl, err) ->
  tls.InsecureSkipVerify (http.TLSClientConfig (http.ClientTransport (c cl)))
  = true.
Proof.
  unfold NewClient.
  destruct (tls.LoadX509KeyPair p (CertFile conf) (CertKeyFile conf))
    as [cert [e|]]; intros H; [discriminate|].
  now inversion H.
Qed.

Lemma NewClient_skips_verification_witness :
  exists cl, NewClient examplePlatform exampleConfig = (Some cl, None)
             /\ tls.InsecureSkipVerify
                  (http.TLSClientConfig (http.ClientTransport (c cl))) = true.
Proof.
  eexists. split; [reflexivity|].
  apply (NewClient_skips_verification examplePlatform exampleConfig _ None).
  reflexivity.
Defined.

(** ** Running programs *)

Lemma run_bind (E : Env) {A B : Type} (p : Prog A) (f : A -> Prog B)
    (cl : Client) (w : World) :
  run E (bind p f) cl w
  = match run E p cl w with
    | Some (a, cl', w') => run E (f a) cl' w'
    | None => None
    end.
Proof.
  revert cl w. induction p as [a | X act k IH]; intros cl w; [reflexivity|].
  cbn [bind run]. destruct (exec E act cl w) as [[[x cl'] w']|]; [apply IH | reflexivity].
Qed.

Lemma set_reqLock_id (cl : Client) (b : bool) :
  reqLock cl = b -> set_reqLock b cl = cl.
Proof. destruct cl; cbn; now intros ->. Qed.

(** The login exchange always returns; a failure leaves the client as it
    was. *)
Lemma Login_run (E : Env) (cl : Client) (w : World) :
  run E (Login E) cl w
  = let '(res, w1) := roundTrip E ByLogin (loginRequest E (cfg cl)) w in
    match granted E res with
    | inr err => Some (Some err, cl, w1)
    | inl (tok, seconds) =>
        Some (None, set_session tok (Time_Add (now w1) (seconds * Second)) cl, w1)
    end.
Proof.
  unfold Login. rewrite run_bind. cbn [perform run exec].
  rewrite run_bind. cbn [perform run exec]. fold (loginRequest E (cfg cl)).
  destruct (roundTrip E ByLogin (loginRequest E (cfg cl)) w) as [res w1].
  unfold granted.
  destruct res as [resp | err | resp err]; try reflexivity.
  destruct (negb (is2xx (http.StatusCode resp))); [reflexivity|].
  destruct (decodeLogin E (http.RespBody resp)) as [[tok seconds] [err|]];
    reflexivity.
Qed.

Ltac run_step :=
  rewrite run_bind;
  cbn [perform run exec set_session set_reqLock c cfg token tokenExpires reqLock].

Ltac split_roundTrip o :=
  match goal with
  | |- context [roundTrip ?E o ?r ?w] =>
      let res := fresh "res" in
      let w' := fresh "w" in
      destruct (roundTrip E o r w) as [res w']
  end.

Ltac client_fields :=
  cbn [set_session set_reqLock c cfg token tokenExpires reqLock].

(** On a client whose mutex is free a dispatch call returns, with the
    mutex free again. *)
Lemma doRequest_run (E : Env) (req : http.Request) (cl : Client) (w : World) :
  reqLock cl = false ->
  run E (doRequest E req) cl w = Some (dispatch E req cl w).
Proof.
  destruct cl as [hc conf tok0 expires0 held]. cbn [reqLock]. intros ->.
  unfold doRequest, defer, dispatch, withHeaders, stale.
  do 4 run_step. client_fields.
  destruct (Time_Before expires0 (Time_Add (now w) (Minute * 5))).
  - run_step. rewrite Login_run. client_fields.
    split_roundTrip ByLogin.
    destruct (granted E res) as [[tok seconds] | err]; [|reflexivity].
    do 2 run_step. client_fields.
    split_roundTrip ByDispatch. reflexivity.
  - do 3 run_step. client_fields.
    split_roundTrip ByDispatch. reflexivity.
Qed.

(** While the mutex is held a dispatch call does not get past [Lock]. *)
Lemma doRequest_blocked (E : Env) (req : http.Request) (cl : Client) (w : World) :
  reqLock cl = true -> run E (doRequest E req) cl w = None.
Proof.
  intros Hheld. unfold doRequest. run_step. now rewrite Hheld.
Qed.

(** ** One dispatch call *)

Lemma dispatch_Dispatched (E : Env) (req : http.Request) (cl : Client) (w : World)
    (res : http.Result) (cl' : Client) (w' : World) :
  dispatch E req cl w = (res, cl', w') -> Dispatched E req cl w res cl' w'.
Proof.
  unfold dispatch, roundTrip.
  destruct (stale cl w) eqn:Hstale.
  - destruct (remote E w (loginRequest E (cfg cl))) as [d lres] eqn:Hlogin.
    destruct (granted E lres) as [[tok seconds] | err] eqn:Hgrant.
    + destruct (remote E (exchanged ByLogin (loginRequest E (cfg cl)) d lres w)
                  (withHeaders (AppID (cfg cl)) tok req)) as [d' res'] eqn:Hdo.
      intros [= <- <- <-].
      now apply dispatched_renewed
        with (d := d) (lres := lres)
             (w1 := exchanged ByLogin (loginRequest E (cfg cl)) d lres w).
    + intros [= <- <- <-]. now eapply dispatched_denied.
  - destruct (remote E w (withHeaders (AppID (cfg cl)) (token cl) req))
      as [d res'] eqn:Hdo.
    intros [= <- <- <-]. now apply dispatched_fresh.
Qed.

Lemma doRequest_Dispatched (E : Env) (req : http.Request) (cl : Client) (w : World)
    (res : http.Result) (cl' : Client) (w' : World) :
  run E (doRequest E req) cl w = Some (res, cl', w') ->
  reqLock cl = false /\ Dispatched E req cl w res cl' w'.
Proof.
  destruct (reqLock cl) eqn:Hlock.
  - now rewrite doRequest_blocked.
  - rewrite doRequest_run by assumption. intros [= H].
    split; [reflexivity | now apply dispatch_Dispatched].
Qed.

Lemma Dispatched_client (E : Env) (req : http.Request) (cl : Client) (w : World)
    (res : http.Result) (cl' : Client) (w' : World) :
  Dispatched E req cl w res cl' w' ->
  reqLock cl' = reqLock cl /\ cfg cl' = cfg cl /\ c cl' = c cl.
Proof. now destruct 1. Qed.




(** ** A failing login *)

(** A login that fails leaves the client it ran on as it was, and what it
    put on the wire is the login exchange alone. *)
Lemma Login_failure (E : Env) (cl : Client) (w : World)
    (err : error) (cl1 : Client) (w1 : World) :
  run E (Login E) cl w = Some (Some err, cl1, w1) ->
  cl1 = cl
  /\ exists d lres,
       remote E w (loginRequest E (cfg cl)) = (d, lres)
       /\ granted E lres = inr err
       /\ w1 = exchanged ByLogin (loginRequest E (cfg cl)) d lres w.
Proof.
  rewrite Login_run. unfold roundTrip.
  destruct (remote E w (loginRequest E (cfg cl))) as [d lres].
  destruct (granted E lres) as [[tok seconds] | err'] eqn:Hgrant;
    intros [= <- <- <-].
  split; [reflexivity|]. now exists d, lres.
Qed.

Lemma doRequest_login_failed (E : Env) (req : http.Request)
    (cl : Client) (w : World) (err : error) (cl1 : Client) (w1 : World) :
  reqLock cl = false ->
  stale cl w = true ->
  run E (Login E) (set_reqLock true cl) w = Some (Some err, cl1, w1) ->
  run E (doRequest E req) cl w = Some (http.Failed err, cl, w1).
Proof.
  intros Hfree Hstale Hlogin.
  apply Login_failure in Hlogin as [-> (d & lres & Hremote & Hgrant & ->)].
  rewrite doRequest_run by assumption.
  unfold dispatch, roundTrip. rewrite Hstale.
  cbn [cfg set_reqLock] in Hremote. now rewrite Hremote, Hgrant.
Qed.

(** C2: when the login that a dispatch call triggers fails, the call
    returns that error and the client is exactly as before the attempt:
    the login itself changed nothing, and the call returns the client it
    was given, token and expiry included. *)
Theorem login_failure_keeps_session (E : Env) (req : http.Request)
    (cl : Client) (w : World) (err : error) (cl1 : Client) (w1 : World) :
  reqLock cl = false ->
  stale cl w = true ->
  run E (Login E) (set_reqLock true cl) w = Some (Some err, cl1, w1) ->
  cl1 = set_reqLock true cl
  /\ exists cl',
       run E (doRequest E req) cl w = Some (http.Failed err, cl', w1)
       /\ cl' = cl
       /\ token cl' = token cl
       /\ tokenExpires cl' = tokenExpires cl.
Proof.
  intros Hfree Hstale Hlogin.
  split; [now apply Login_failure in Hlogin|].
  exists cl. split; [|easy].
  now apply doRequest_login_failed with (cl1 := cl1).
Qed.

Lemma login_failure_keeps_session_witness :
  exists cl',
    run deniedEnv (doRequest deniedEnv exampleRequest) freshClient exampleWorld
    = Some (http.Failed (errors_New "invalid response code: 401 Unauthorized"),
            cl',
            exchanged ByLogin (loginRequest deniedEnv exampleConfig) Second
              (respond 401 "401 Unauthorized" "") exampleWorld)
    /\ cl' = freshClient
    /\ token cl' = token freshClient
    /\ tokenExpires cl' = tokenExpires freshClient.
Proof.
  refine (proj2 (login_failure_keeps_session deniedEnv exampleRequest
                   freshClient exampleWorld _ _ _ _ _ _));
    reflexivity.
Defined.

(** C3: when the session check of a dispatch call requires a login and the
    login returns an error, the call returns that error and the world it
    leaves is the one the login left: the primary call is not made. *)
Theorem login_failure_aborts (E : Env) (req : http.Request)
    (cl : Client) (w : World) (err : error) (cl1 : Client) (w1 : World) :
  reqLock cl = false ->
  stale cl w = true ->
  run E (Login E) (set_reqLock true cl) w = Some (Some err, cl1, w1) ->
  (exists cl', run E (doRequest E req) cl w = Some (http.Failed err, cl', w1))
  /\ primaries (drop (length (wire w)) (wire w1)) = 0%nat.
Proof.
  intros Hfree Hstale Hlogin.
  split.
  - exists cl. now apply doRequest_login_failed with (cl1 := cl1).
  - apply Login_failure in Hlogin as [_ (d & lres & _ & _ & ->)].
    unfold exchanged. cbn [wire]. now rewrite drop_app_length.
Qed.

Lemma login_failure_aborts_witness :
  (exists cl',
     run deniedEnv (doRequest deniedEnv exampleRequest) freshClient exampleWorld
     = Some (http.Failed (errors_New "invalid response code: 401 Unauthorized"),
             cl',
             exchanged ByLogin (loginRequest deniedEnv exampleConfig) Second
               (respond 401 "401 Unauthorized" "") exampleWorld))
  /\ primaries
       (drop (length (wire exampleWorld))
          (wire (exchanged ByLogin (loginRequest deniedEnv exampleConfig) Second
                   (respond 401 "401 Unauthorized" "") exampleWorld)))
     = 0%nat.
Proof.
  refine (login_failure_aborts deniedEnv exampleRequest
            freshClient exampleWorld _ _ _ _ _ _);
    reflexivity.
Defined.

(** ** The primary call *)

(** Membership in a list written out: one case per element. *)
Ltac elem_cases H :=
  repeat (apply elem_of_cons in H as [H | H]);
  try (apply elem_of_nil in H; destruct H).

(** The primary call of a dispatch: it is the request with the headers
    added, it is the last thing the call puts on the wire, and what comes
    back is what the call returns. *)
Lemma Dispatched_primary (E : Env) (req : http.Request) (cl : Client) (w : World)
    (res : http.Result) (cl' : Client) (w' : World) (t : Time) (r : http.Request) :
  Dispatched E req cl w res cl' w' ->
  Sent ByDispatch t r ∈ drop (length (wire w)) (wire w') ->
  r = withHeaders (AppID (cfg cl')) (token cl') req
  /\ exists w0 d,
       remote E w0 r = (d, res)
       /\ now w0 = t
       /\ w' = exchanged ByDispatch r d res w0
       /\ (stale cl w = false -> w0 = w)
       /\ primaries (drop (length (wire w)) (wire w0)) = 0%nat.
Proof.
  destruct 1 as [d res Hstale Hdo | d lres err Hstale Hlogin Hgrant
                | d lres tok seconds w1 d' res Hstale Hlogin Hgrant -> Hdo];
    unfold exchanged; cbn [wire now]; rewrite <- ?app_assoc, drop_app_length;
    intros Hin; elem_cases Hin; try discriminate;
    injection Hin as -> ->.
  - split; [reflexivity|]. exists w, d.
    rewrite drop_ge by reflexivity. now repeat split.
  - split; [reflexivity|].
    exists (exchanged ByLogin (loginRequest E (cfg cl)) d lres w), d'.
    repeat split; try assumption; try reflexivity.
    + unfold exchanged. cbn [wire now]. now rewrite <- app_assoc.
    + now rewrite Hstale.
    + unfold exchanged. cbn [wire]. now rewrite drop_app_length.
Qed.

Lemma Values_Add (key key' value : string) (h : http.Header) :
  http.Values key (http.Add key' value h)
  = if decide (http.CanonicalMIMEHeaderKey key' = http.CanonicalMIMEHeaderKey key)
    then http.Values key h ++ [value]
    else http.Values key h.
Proof.
  unfold http.Values, http.Add. case_decide as Hk.
  - now rewrite <- Hk, lookup_insert_eq.
  - now rewrite lookup_insert_ne.
Qed.

Lemma lookup_Add_ne (k key value : string) (h : http.Header) :
  http.CanonicalMIMEHeaderKey key <> k -> http.Add key value h !! k = h !! k.
Proof. intros Hk. unfold http.Add. now rewrite lookup_insert_ne. Qed.

(** The keys the three headers are stored under. *)
Lemma dispatch_keys :
  http.CanonicalMIMEHeaderKey "app_key" = "App_key"
  /\ http.CanonicalMIMEHeaderKey "Authorization" = "Authorization"
  /\ http.CanonicalMIMEHeaderKey "Content-Type" = "Content-Type".
Proof. repeat split; reflexivity. Qed.

Lemma withHeaders_carries (appID tok : string) (req : http.Request) :
  carries appID tok req (withHeaders appID tok req).
Proof.
  unfold carries, withHeaders. cbn [http.Hdr http.Method http.URL http.Body].
  rewrite !Values_Add.
  repeat split.
  intros k Hk. rewrite !lookup_Add_ne; [reflexivity | | |];
    intros <-; apply Hk; cbn; set_solver.
Qed.



(** ** request *)

Lemma NewRequest_inl (parse : string -> option error) (method url : string)
    (body : option http.Payload) (r : http.Request) :
  http.NewRequest parse method url body = inl r ->
  http.URL r = url /\ http.Hdr r = ∅ /\ http.Body r = body.
Proof.
  unfold http.NewRequest.
  destruct (negb _); [discriminate|].
  destruct (parse url); [discriminate|].
  now intros [= <-].
Qed.

Lemma request_run (E : Env) (method urlStr : string) (body : option http.Payload)
    (cl : Client) (w : World) :
  run E (request E method urlStr body) cl w
  = match http.NewRequest (parseURL E) method (URL (cfg cl) +:+ urlStr) body with
    | inr err => Some (http.Failed err, cl, w)
    | inl r => run E (doRequest E r) cl w
    end.
Proof.
  unfold request. run_step.
  now destruct (http.NewRequest (parseURL E) method (URL (cfg cl) +:+ urlStr) body).
Qed.




(** ** RegisterDevice *)



(** ** Sequences of dispatch calls *)


(** The scenarios of the specification.  A: the first call of a fresh
    client logs in and sends T1, the second, ten seconds later, sends T1
    without a login. *)
Example scenario_A :
  map summary (history hourEnv (scenarioA exampleRequest) freshClient exampleWorld)
  = [ (1%nat, ["T1"], "T1", 4601 * Second);
      (0%nat, ["T1"], "T1", 4601 * Second) ].
Proof. vm_compute. reflexivity. Qed.

(** B: a token with 200 seconds left is replaced before the primary call. *)
Example scenario_B :
  map summary (history renewEnv [(0, exampleRequest)] expiringClient exampleWorld)
  = [ (1%nat, ["T2"], "T2", 4601 * Second) ].
Proof. vm_compute. reflexivity. Qed.

(** C: a refused login makes no primary call and leaves the client
    unauthenticated; the next call logs in again. *)
Example scenario_C :
  map summary (history deniedEnv (scenarioA exampleRequest) freshClient exampleWorld)
  = [ (1%nat, [], "", 0); (1%nat, [], "", 0) ]
  /\ map returned
       (history deniedEnv [(0, exampleRequest)] freshClient exampleWorld)
     = [ http.Failed (errors_New "invalid response code: 401 Unauthorized") ].
Proof. split; vm_compute; reflexivity. Qed.




(** ** The lock discipline of doRequest *)

Lemma Plain_bind {A B : Type} (p : Prog A) (f : A -> Prog B) :
  Plain p -> (forall a, Plain (f a)) -> Plain (bind p f).
Proof.
  induction 1 as [a | X act k Hact Hk IH]; intros Hf; cbn [bind].
  - apply Hf.
  - constructor; [exact Hact | intros x; now apply IH].
Qed.

Lemma Plain_perform {X : Type} (act : Action X) :
  locking act = false -> Plain (perform act).
Proof. intros Hact. constructor; [exact Hact | constructor]. Qed.

Lemma Crit_defer {A : Type} (p : Prog A) : Plain p -> Crit (defer Unlock p).
Proof.
  unfold defer. induction 1 as [a | X act k Hact Hk IH]; cbn [bind].
  - constructor. intros _. now exists a.
  - now constructor.
Qed.

Lemma Plain_Login (E : Env) : Plain (Login E).
Proof.
  unfold Login.
  apply Plain_bind; [now apply Plain_perform | intros conf].
  apply Plain_bind; [now apply Plain_perform | intros res].
  destruct res as [resp | err | resp err]; try constructor.
  destruct (negb _); [constructor|].
  destruct (decodeLogin E (http.RespBody resp)) as [[tok seconds] [err|]];
    [constructor|].
  apply Plain_bind; [now apply Plain_perform | intros t].
  apply Plain_bind; [now apply Plain_perform | intros _]. constructor.
Qed.

(** A dispatch call takes the mutex first, and what follows is a critical
    section. *)
Lemma doRequest_entry (E : Env) (req : http.Request) :
  exists k, doRequest E req = Act Lock k /\ forall x, Crit (k x).
Proof.
  unfold doRequest. cbn [bind perform].
  eexists. split; [reflexivity|]. intros x. cbv beta.
  apply Crit_defer.
  constructor; [reflexivity | intros expires].
  constructor; [reflexivity | intros t].
  apply Plain_bind.
  - destruct (Time_Before _ _); [apply Plain_Login | constructor].
  - intros [err|]; [constructor|].
    constructor; [reflexivity | intros conf].
    constructor; [reflexivity | intros tok].
    now apply Plain_perform.
Qed.

Lemma inside_not_returned {A : Type} (t : Thread A) :
  inside t -> result_of t = None.
Proof.
  destruct t as [p | o ready res k]; [|reflexivity].
  cbn [inside]. intros H. now destruct H.
Qed.

(** ** Steps of a goroutine *)

(** A step does not change what the goroutine comes to when left alone. *)
Lemma complete_step (E : Env) {A : Type} (t t' : Thread A)
    (cl cl' : Client) (w w' : World) :
  thread_step E t cl w = Some (t', cl', w') ->
  complete E t cl w = complete E t' cl' w'.
Proof.
  destruct t as [[a | X act k] | o ready res k]; cbn [thread_step].
  - discriminate.
  - destruct act; cbn [complete run];
      try (destruct (exec E _ cl w) as [[[x cl1] w1]|]; cbn [resume];
           [now intros [= <- <- <-] | discriminate]).
    cbn [exec]. unfold roundTrip.
    destruct (remote E w req) as [d res]. intros [= <- <- <-].
    cbn [complete now wire]. unfold exchanged.
    rewrite <- app_assoc. cbn [app].
    now replace (Z.max (now w) (now w + Z.max 0 d)) with (now w + Z.max 0 d) by lia.
  - now intros [= <- <- <-].
Qed.

(** Inside the critical section a step keeps the mutex held, until the
    step that releases it, after which the goroutine has returned. *)
Lemma inside_step (E : Env) {A : Type} (t t' : Thread A)
    (cl cl' : Client) (w w' : World) :
  inside t ->
  reqLock cl = true ->
  thread_step E t cl w = Some (t', cl', w') ->
  (inside t' /\ reqLock cl' = true)
  \/ ((exists a, t' = Running (Ret a)) /\ reqLock cl' = false).
Proof.
  intros Hin Hheld.
  destruct t as [p | o ready res k]; cbn [inside] in Hin.
  - destruct Hin as [k Hret | X act k Hact Hk]; cbn [thread_step].
    + cbn [exec resume]. rewrite Hheld. cbn [resume]. intros [= <- <- <-].
      right. destruct (Hret tt) as [a ->]. split; [now exists a | reflexivity].
    + destruct act; try discriminate; cbn [exec resume];
        try (intros [= <- <- <-]; left; split; [apply Hk | assumption]).
      destruct (remote E w req) as [d res]. intros [= <- <- <-].
      left. split; [exact Hk | assumption].
  - cbn [thread_step]. intros [= <- <- <-]. left. split; [apply Hin | assumption].
Qed.

(** Before the critical section the only step is taking the mutex, which
    must be free. *)
Lemma entry_step (E : Env) {A : Type} (k : unit -> Prog A) (t' : Thread A)
    (cl cl' : Client) (w w' : World) :
  thread_step E (Running (Act Lock k)) cl w = Some (t', cl', w') ->
  reqLock cl = false /\ t' = Running (k tt) /\ cl' = set_reqLock true cl /\ w' = w.
Proof.
  cbn [thread_step exec]. destruct (reqLock cl); cbn [resume]; [discriminate|].
  now intros [= <- <- <-].
Qed.

(** ** Calls served in a row *)

Lemma serve_snoc (E : Env) (reqs : list http.Request) (req : http.Request)
    (cl : Client) (w : World) :
  serve E (reqs ++ [req]) cl w
  = match serve E reqs cl w with
    | None => None
    | Some (ress, cl1, w1) =>
        match run E (doRequest E req) cl1 w1 with
        | None => None
        | Some (res, cl2, w2) => Some (ress ++ [res], cl2, w2)
        end
    end.
Proof.
  revert cl w. induction reqs as [|req0 reqs IH]; intros cl w; cbn [app serve].
  - now destruct (run E (doRequest E req) cl w) as [[[res cl2] w2]|].
  - destruct (run E (doRequest E req0) cl w) as [[[res0 cl0] w0']|];
      [|reflexivity].
    rewrite IH.
    destruct (serve E reqs cl0 w0') as [[[ress cl1] w1]|]; [|reflexivity].
    now destruct (run E (doRequest E req) cl1 w1) as [[[res cl2] w2]|].
Qed.




Lemma pick_snoc (reqs : list http.Request) (order : list nat) (i : nat)
    (req : http.Request) :
  reqs !! i = Some req -> pick reqs (order ++ [i]) = pick reqs order ++ [req].
Proof. intros Hreq. unfold pick. rewrite omap_app. simpl. now rewrite Hreq. Qed.

(** ** Interleavings *)


Lemma exec_wire (E : Env) {X : Type} (act : Action X) (cl cl' : Client)
    (w w' : World) (x : X) :
  exec E act cl w = Some (x, cl', w') -> exists evs, wire w' = wire w ++ evs.
Proof.
  destruct act; cbn [exec].
  1, 2: destruct (reqLock cl); try discriminate.
  all: try (intros [= <- <- <-]; exists []; now rewrite app_nil_r).
  unfold roundTrip. destruct (remote E w req) as [d res].
  intros [= <- <- <-]. now eexists.
Qed.


Lemma thread_step_wire (E : Env) {A : Type} (t t' : Thread A)
    (cl cl' : Client) (w w' : World) :
  thread_step E t cl w = Some (t', cl', w') ->
  exists evs, wire w' = wire w ++ evs.
Proof.
  destruct t as [[a | X act k] | o ready res k]; cbn [thread_step].
  - discriminate.
  - destruct act;
      try (destruct (exec E _ cl w) as [[[x cl1] w1]|] eqn:Hexec;
           cbn [resume]; [|discriminate];
           intros [= <- <- <-]; now apply exec_wire in Hexec).
    destruct (remote E w req) as [d res]. intros [= <- <- <-]. now eexists.
  - intros [= <- <- <-]. now eexists.
Qed.

(** The initial state has the serial view with nothing served. *)
Lemma concurrent_view (E : Env) (reqs : list http.Request) (cl : Client) (w : World) :
  reqLock cl = false ->
  serial_view E reqs cl w (concurrent E reqs cl w).
Proof.
  intros Hfree. exists [], [], cl, w. split.
  - constructor; try reflexivity; try assumption.
    + constructor.
    + cbn. now rewrite length_map.
    + intros j i Hj. now rewrite lookup_nil in Hj.
  - apply phase_quiet; try reflexivity.
    intros i req _ Hreq. cbn. rewrite list_lookup_fmap, Hreq. reflexivity.
Qed.

(** A step of a goroutine keeps the serial view. *)
Lemma sys_step_view (E : Env) (reqs : list http.Request) (cl0 : Client)
    (w0 : World) (i : nat) (s s' : System) :
  serial_view E reqs cl0 w0 s ->
  sys_step E i s = Some s' ->
  serial_view E reqs cl0 w0 s'.
Proof.
  intros (order & ress & clq & wq & HS & HP). unfold sys_step.
  destruct (threads s !! i) as [t|] eqn:Ht; [|discriminate].
  destruct (thread_step E t (shared s) (world s)) as [[[t' cl'] w']|] eqn:Hstep;
    [|discriminate].
  intros [= <-].
  assert (Hi : (i < length (threads s))%nat) by now apply lookup_lt_Some in Ht.
  assert (Hni : i ∉ order).
  { intros [j Hj]%list_elem_of_lookup.
    destruct (ser_returned _ _ _ _ _ _ _ _ _ HS j i Hj) as (r & _ & Hti).
    rewrite Ht in Hti. injection Hti as ->. discriminate Hstep. }
  destruct (lookup_lt_is_Some_2 reqs i) as [req Hreq];
    [now rewrite <- (ser_threads _ _ _ _ _ _ _ _ _ HS)|].
  assert (Hkeep : forall j i', order !! j = Some i' ->
            exists r, ress !! j = Some r
                      /\ <[i:=t']> (threads s) !! i' = Some (Running (Ret r))).
  { intros j i' Hj.
    destruct (ser_returned _ _ _ _ _ _ _ _ _ HS j i' Hj) as (r & Hr & Hti).
    exists r. split; [assumption|].
    rewrite list_lookup_insert_ne; [assumption|].
    intros ->. apply Hni, list_elem_of_lookup. now exists j. }
  destruct (thread_step_wire E _ _ _ _ _ _ Hstep) as [evs' Hevs'].
  destruct HP as [Hcl Hw Hstart
                 | i0 req0 t0 Hni0 Hreq0 Ht0 Hin0 Hheld Hcomp [evs0 Hevs0] Hothers].
  - (* nobody is inside: goroutine [i] takes the mutex *)
    pose proof (Hstart i req Hni Hreq) as Hti.
    rewrite Ht in Hti. injection Hti as ->.
    destruct (doRequest_entry E req) as (k & Hk & Hcrit).
    rewrite Hk in Hstep.
    apply entry_step in Hstep as (Hfree & -> & -> & ->).
    exists order, ress, clq, wq. split.
    + destruct HS. constructor; cbn [threads]; try assumption.
      now rewrite length_insert.
    + apply phase_busy with (i := i) (req := req) (t := Running (k tt));
        cbn [shared world threads]; try assumption.
      * now apply list_lookup_insert_eq.
      * apply Hcrit.
      * now destruct (shared s).
      * rewrite Hk. cbn [complete run exec]. rewrite <- Hcl, <- Hw, Hfree.
        reflexivity.
      * exists []. now rewrite app_nil_r, Hw.
      * intros j req' Hj Hne Hreq'. rewrite list_lookup_insert_ne by congruence.
        now apply Hstart.
  - destruct (decide (i = i0)) as [-> | Hne].
    + (* the goroutine inside goes on *)
      rewrite Ht0 in Ht. injection Ht as ->.
      rewrite Hreq0 in Hreq. injection Hreq as ->.
      pose proof (complete_step E _ _ _ _ _ _ Hstep) as Hc.
      destruct (inside_step E _ _ _ _ _ _ Hin0 Hheld Hstep)
        as [[Hin' Hheld'] | [[a ->] Hfree']].
      * exists order, ress, clq, wq. split.
        -- destruct HS. constructor; cbn [threads]; try assumption.
           now rewrite length_insert.
        -- apply phase_busy with (i := i0) (req := req) (t := t');
             cbn [shared world threads]; try assumption.
           ++ now apply list_lookup_insert_eq.
           ++ now rewrite <- Hc.
           ++ exists (evs0 ++ evs'). now rewrite Hevs', Hevs0, app_assoc.
           ++ intros j req' Hj Hne Hreq'.
              rewrite list_lookup_insert_ne by congruence. now apply Hothers.
      * (* it has released the mutex and returned *)
        cbn [complete run] in Hc. rewrite Hcomp in Hc.
        exists (order ++ [i0]), (ress ++ [a]), cl', w'. split.
        -- destruct HS. constructor; cbn [threads].
           ++ rewrite (pick_snoc _ _ _ _ Hreq0), serve_snoc, ser_served0.
              now rewrite Hc.
           ++ assumption.
           ++ apply NoDup_app. split; [assumption|].
              split; [|apply NoDup_singleton].
              intros x Hx ->%list_elem_of_singleton. contradiction.
           ++ now rewrite length_insert.
           ++ rewrite !length_app. cbn [length]. lia.
           ++ intros j i' [Hj | [Hj Hi']]%lookup_app_Some.
              ** destruct (Hkeep j i' Hj) as (r & Hr & Hti).
                 exists r. split; [|assumption].
                 now apply lookup_app_l_Some.
              ** apply list_lookup_singleton_Some in Hi' as [Hj' <-].
                 exists a. split.
                 --- replace j with (length ress) by lia.
                     apply list_lookup_middle. reflexivity.
                 --- now apply list_lookup_insert_eq.
        -- apply phase_quiet; cbn [shared world threads]; try reflexivity.
           intros j req' Hj Hreq'.
           rewrite not_elem_of_app, list_elem_of_singleton in Hj.
           destruct Hj as [Hj Hne].
           rewrite list_lookup_insert_ne by congruence. now apply Hothers.
    + (* a goroutine outside cannot take the mutex *)
      pose proof (Hothers i req Hni Hne Hreq) as Hti.
      rewrite Ht in Hti. injection Hti as ->.
      destruct (doRequest_entry E req) as (k & Hk & _).
      rewrite Hk in Hstep.
      apply entry_step in Hstep as (Hfree & _). congruence.
Qed.

Lemma interleave_view (E : Env) (reqs : list http.Request) (cl0 : Client)
    (w0 : World) (sched : list nat) (s s' : System) :
  serial_view E reqs cl0 w0 s ->
  interleave E sched s = Some s' ->
  serial_view E reqs cl0 w0 s'.
Proof.
  revert s. induction sched as [|i sched IH]; intros s Hview; cbn [interleave].
  - now intros [= <-].
  - destruct (sys_step E i s) as [s1|] eqn:Hstep; [|discriminate].
    apply IH. now apply sys_step_view with (i := i) (s := s).
Qed.

(** ** Logins in a row of served calls *)






(** ** Concurrent dispatch calls *)










(** * Further properties *)

(** ** What request sends and what it hands back *)

Lemma run_bind_pure (E : Env) {A B : Type} (p : Prog A) (f : A -> Prog B)
    (cl cl' : Client) (w w' : World) (b : B) :
  (forall a, exists b', f a = Ret b') ->
  run E (bind p f) cl w = Some (b, cl', w') ->
  exists a, run E p cl w = Some (a, cl', w') /\ f a = Ret b.
Proof.
  intros Hpure. rewrite run_bind.
  destruct (run E p cl w) as [[[a cl1] w1]|]; [|discriminate].
  destruct (Hpure a) as [b' Hb']. rewrite Hb'. cbn [run].
  intros [= <- <- <-]. now exists a.
Qed.

Lemma NewRequest_method (parse : string -> option error) (method url : string)
    (body : option http.Payload) (r : http.Request) :
  http.NewRequest parse method url body = inl r ->
  http.Method r = if nonempty method then method else http.MethodGet.
Proof.
  unfold http.NewRequest.
  destruct (negb _); [discriminate|].
  destruct (parse url); [discriminate|].
  now intros [= <-].
Qed.

Lemma withHeaders_empty (appID tok : string) (req : http.Request) :
  http.Hdr req = ∅ ->
  http.Hdr (withHeaders appID tok req) = dispatchHeader appID tok.
Proof.
  intros Hempty. unfold withHeaders, dispatchHeader, http.Add.
  cbn [http.Hdr]. rewrite Hempty.
  change (http.CanonicalMIMEHeaderKey "app_key") with "App_key".
  change (http.CanonicalMIMEHeaderKey "Authorization") with "Authorization".
  change (http.CanonicalMIMEHeaderKey "Content-Type") with "Content-Type".
  rewrite lookup_empty.
  rewrite (lookup_insert_ne _ "App_key" "Authorization") by discriminate.
  rewrite lookup_empty.
  rewrite (lookup_insert_ne _ "Authorization" "Content-Type") by discriminate.
  rewrite (lookup_insert_ne _ "App_key" "Content-Type") by discriminate.
  now rewrite lookup_empty.
Qed.

Lemma since_same (w : World) : since w w = [].
Proof. unfold since. now apply drop_ge. Qed.

(** Every primary call made through request has the shape [sent_as]. *)
Lemma request_primary (E : Env) (method urlStr : string)
    (body : option http.Payload) (cl : Client) (w : World)
    (res : http.Result) (cl' : Client) (w' : World)
    (t : Time) (r : http.Request) :
  run E (request E method urlStr body) cl w = Some (res, cl', w') ->
  Sent ByDispatch t r ∈ since w w' ->
  sent_as method (URL (cfg cl) +:+ urlStr) body (AppID (cfg cl)) (token cl') r.
Proof.
  rewrite request_run.
  destruct (http.NewRequest (parseURL E) method (URL (cfg cl) +:+ urlStr) body)
    as [req | err] eqn:Hnew.
  - intros [_ Hd]%doRequest_Dispatched Hin.
    destruct (Dispatched_client _ _ _ _ _ _ _ Hd) as (_ & Hcfg & _).
    apply (Dispatched_primary _ _ _ _ _ _ _ _ _ Hd) in Hin as [-> _].
    rewrite Hcfg.
    pose proof (NewRequest_method _ _ _ _ _ Hnew) as Hmethod.
    apply NewRequest_inl in Hnew as (Hurl & Hhdr & Hbody).
    unfold sent_as. rewrite withHeaders_empty by assumption.
    now cbn [withHeaders http.Method http.URL http.Body].
  - intros [= <- <- <-]. rewrite since_same. intros Hin.
    now apply elem_of_nil in Hin.
Qed.

(** What request returns is the answer to its primary call, the last thing
    on the wire; or, when no primary call was made, an error. *)
Lemma request_outcome (E : Env) (method urlStr : string)
    (body : option http.Payload) (cl : Client) (w : World)
    (res : http.Result) (cl' : Client) (w' : World) :
  run E (request E method urlStr body) cl w = Some (res, cl', w') ->
  (exists t, last (since w w') = Some (Received ByDispatch t res))
  \/ ((exists err, res = http.Failed err)
      /\ forall t r, last (since w w') <> Some (Received ByDispatch t r)).
Proof.
  rewrite request_run.
  destruct (http.NewRequest (parseURL E) method (URL (cfg cl) +:+ urlStr) body)
    as [req | err].
  - intros [_ Hd]%doRequest_Dispatched.
    destruct Hd as [d res0 Hstale Hdo | d lres err Hstale Hlogin Hgrant
                   | d lres tok seconds w1 d' res0 Hstale Hlogin Hgrant -> Hdo];
      unfold since, exchanged; cbn [wire now];
      rewrite <- ?app_assoc, drop_app_length; cbn [app last].
    + left. now eexists.
    + right. split; [now exists err | discriminate].
    + left. now eexists.
  - intros [= <- <- <-]. rewrite since_same. right.
    split; [now exists err | discriminate].
Qed.

(** The answer an operation looks at: when the last thing on the wire is
    the answer [resp] to a primary call, that is what request returned. *)
Lemma request_answered (E : Env) (method urlStr : string)
    (body : option http.Payload) (cl : Client) (w : World)
    (res : http.Result) (cl' : Client) (w' : World)
    (code : Z) (resp : http.Response) :
  run E (request E method urlStr body) cl w = Some (res, cl', w') ->
  answered w w' code resp ->
  res = http.Responded resp.
Proof.
  intros Hrun (t & Hlast & _).
  destruct (request_outcome _ _ _ _ _ _ _ _ _ Hrun) as [[t' Hlast'] | [_ Hnone]].
  - rewrite Hlast in Hlast'. now injection Hlast' as _ ->.
  - now apply Hnone in Hlast.
Qed.

Lemma request_responded (E : Env) (method urlStr : string)
    (body : option http.Payload) (cl : Client) (w : World)
    (resp : http.Response) (cl' : Client) (w' : World) :
  run E (request E method urlStr body) cl w
  = Some (http.Responded resp, cl', w') ->
  answered w w' (http.StatusCode resp) resp.
Proof.
  intros Hrun.
  destruct (request_outcome _ _ _ _ _ _ _ _ _ Hrun)
    as [[t Hlast] | [[err Herr] _]]; [|discriminate].
  now exists t.
Qed.

(** ** DeleteDevice and SetDeviceInfo *)

(** X1: DeleteDevice sends DELETE, without a body, to the device's path
    under the configured URL.  It returns no error exactly when that call is
    answered with status 204; an answer with any other status gives the
    error that names the status. *)
Theorem DeleteDevice_outcome (E : Env) (deviceID : string)
    (cl : Client) (w : World) (err : option error) (cl' : Client) (w' : World) :
  run E (DeleteDevice E deviceID) cl w = Some (err, cl', w') ->
  (forall t r, Sent ByDispatch t r ∈ since w w' ->
     sent_as MethodDelete
       (URL (cfg cl) +:+ ("/iocm/app/dm/v1.1.0/devices/" +:+ deviceID))
       None (AppID (cfg cl)) (token cl') r)
  /\ (err = None <-> exists resp, answered w w' StatusNoContent resp)
  /\ (forall code resp, answered w w' code resp -> code <> StatusNoContent ->
        err = Some (invalidResponseCode resp)).
Proof.
  unfold DeleteDevice. intros Hrun.
  apply run_bind_pure in Hrun as (res & Hrun & Hres).
  2:{ intros [resp | e | resp e]; try (now eexists).
      destruct (negb _); now eexists. }
  split; [|split].
  - intros t r Hin. exact (request_primary E _ _ _ _ _ _ _ _ t r Hrun Hin).
  - split.
    + intros ->. destruct res as [resp | e | resp e]; try discriminate.
      destruct (http.StatusCode resp =? StatusNoContent) eqn:Hcode;
        [|discriminate].
      apply Z.eqb_eq in Hcode. exists resp. rewrite <- Hcode.
      now apply request_responded in Hrun.
    + intros [resp Hresp].
      pose proof (request_answered _ _ _ _ _ _ _ _ _ _ _ Hrun Hresp) as ->.
      destruct Hresp as (_ & _ & Hcode). rewrite Hcode in Hres.
      now injection Hres.
  - intros code resp Hresp Hcode.
    pose proof (request_answered _ _ _ _ _ _ _ _ _ _ _ Hrun Hresp) as ->.
    destruct Hresp as (_ & _ & <-).
    apply Z.eqb_neq in Hcode. rewrite Hcode in Hres. now injection Hres.
Qed.

Lemma DeleteDevice_outcome_witness :
  exists resp,
    answered exampleWorld
      (world_of (run noContentEnv (DeleteDevice noContentEnv "d1")
                   freshClient exampleWorld))
      StatusNoContent resp.
Proof.
  apply (proj1 (proj1 (proj2
    (DeleteDevice_outcome noContentEnv "d1" freshClient exampleWorld None
       (client_of (run noContentEnv (DeleteDevice noContentEnv "d1")
                     freshClient exampleWorld))
       (world_of (run noContentEnv (DeleteDevice noContentEnv "d1")
                    freshClient exampleWorld))
       eq_refl)))).
  reflexivity.
Defined.

(** X2: SetDeviceInfo sends PUT to the device's path with the application
    identifier as appId, and a body that holds the given name, the manufacturer,
    location, device type and model of the configuration, mute FALSE and
    protocol type CoAP.  It returns no error exactly when that call is
    answered with status 204; any other status gives the error that names
    it. *)
Theorem SetDeviceInfo_outcome (E : Env) (deviceID name : string)
    (cl : Client) (w : World) (err : option error) (cl' : Client) (w' : World) :
  run E (SetDeviceInfo E deviceID name) cl w = Some (err, cl', w') ->
  (forall t r, Sent ByDispatch t r ∈ since w w' ->
     sent_as MethodPut
       (URL (cfg cl)
        +:+ ("/iocm/app/dm/v1.2.0/devices/" +:+ deviceID +:+ "?appId="
             +:+ AppID (cfg cl)))
       (Some (http.JSONBody
                [ ("name", http.JString name);
                  ("mute", http.JString "FALSE");
                  ("manufacturerId", http.JString (ManufacturerID (cfg cl)));
                  ("manufacturerName", http.JString (ManufacturerName (cfg cl)));
                  ("location", http.JString (Location (cfg cl)));
                  ("deviceType", http.JString (DeviceType (cfg cl)));
                  ("protocolType", http.JString "CoAP");
                  ("model", http.JString (Model (cfg cl))) ]))
       (AppID (cfg cl)) (token cl') r)
  /\ (err = None <-> exists resp, answered w w' StatusNoContent resp)
  /\ (forall code resp, answered w w' code resp -> code <> StatusNoContent ->
        err = Some (invalidResponseCode resp)).
Proof.
  unfold SetDeviceInfo. run_step.
  cbn [deviceInfoBody.Marshal deviceInfoBody.Name deviceInfoBody.Mute
       deviceInfoBody.ManufacturerID deviceInfoBody.ManufacturerName
       deviceInfoBody.Location deviceInfoBody.DeviceType
       deviceInfoBody.ProtocolType deviceInfoBody.Model].
  intros Hrun.
  apply run_bind_pure in Hrun as (res & Hrun & Hres).
  2:{ intros [resp | e | resp e]; try (now eexists).
      destruct (negb _); now eexists. }
  split; [|split].
  - intros t r Hin. exact (request_primary E _ _ _ _ _ _ _ _ t r Hrun Hin).
  - split.
    + intros ->. destruct res as [resp | e | resp e]; try discriminate.
      destruct (http.StatusCode resp =? StatusNoContent) eqn:Hcode;
        [|discriminate].
      apply Z.eqb_eq in Hcode. exists resp. rewrite <- Hcode.
      now apply request_responded in Hrun.
    + intros [resp Hresp].
      pose proof (request_answered _ _ _ _ _ _ _ _ _ _ _ Hrun Hresp) as ->.
      destruct Hresp as (_ & _ & Hcode). rewrite Hcode in Hres.
      now injection Hres.
  - intros code resp Hresp Hcode.
    pose proof (request_answered _ _ _ _ _ _ _ _ _ _ _ Hrun Hresp) as ->.
    destruct Hresp as (_ & _ & <-).
    apply Z.eqb_neq in Hcode. rewrite Hcode in Hres. now injection Hres.
Qed.

Lemma SetDeviceInfo_outcome_witness :
  exists resp,
    answered exampleWorld
      (world_of (run noContentEnv (SetDeviceInfo noContentEnv "d1" "pump")
                   freshClient exampleWorld))
      StatusNoContent resp.
Proof.
  apply (proj1 (proj1 (proj2
    (SetDeviceInfo_outcome noContentEnv "d1" "pump" freshClient exampleWorld None
       (client_of (run noContentEnv (SetDeviceInfo noContentEnv "d1" "pump")
                     freshClient exampleWorld))
       (world_of (run noContentEnv (SetDeviceInfo noContentEnv "d1" "pump")
                    freshClient exampleWorld))
       eq_refl)))).
  reflexivity.
Defined.

(** ** Subscribe *)

(** X3: Subscribe sends POST to the subscription path with a body whose
    notifyType is deviceDataChanged and whose callbackurl is the URL given.
    It returns a server and no error exactly when that call is answered
    with status 201; any other status, 200 included, gives no server and
    the error that names the status; and it never returns both or
    neither. *)
Theorem Subscribe_outcome (E : Env) (url : string)
    (cl : Client) (w : World) (out : option Server * option error)
    (cl' : Client) (w' : World) :
  run E (Subscribe E url) cl w = Some (out, cl', w') ->
  (forall t r, Sent ByDispatch t r ∈ since w w' ->
     sent_as http.MethodPost
       (URL (cfg cl) +:+ "/iocm/app/sub/v1.2.0/subscribe")
       (Some (http.JSONBody
                [ ("notifyType", http.JString "deviceDataChanged");
                  ("callbackurl", http.JString url) ]))
       (AppID (cfg cl)) (token cl') r)
  /\ (out = (Some zeroServer, None)
      <-> exists resp, answered w w' StatusCreated resp)
  /\ (forall code resp, answered w w' code resp -> code <> StatusCreated ->
        out = (None, Some (invalidResponseCode resp)))
  /\ (out = (Some zeroServer, None) \/ exists err, out = (None, Some err)).
Proof.
  unfold Subscribe.
  cbn [subscribeBody.Marshal subscribeBody.NotifyType subscribeBody.CallbackURL].
  intros Hrun.
  apply run_bind_pure in Hrun as (res & Hrun & Hres).
  2:{ intros [resp | e | resp e]; try (now eexists).
      destruct (negb _); now eexists. }
  split; [|split; [|split]].
  - intros t r Hin. exact (request_primary E _ _ _ _ _ _ _ _ t r Hrun Hin).
  - split.
    + intros ->. destruct res as [resp | e | resp e]; try discriminate.
      destruct (http.StatusCode resp =? StatusCreated) eqn:Hcode;
        [|discriminate].
      apply Z.eqb_eq in Hcode. exists resp. rewrite <- Hcode.
      now apply request_responded in Hrun.
    + intros [resp Hresp].
      pose proof (request_answered _ _ _ _ _ _ _ _ _ _ _ Hrun Hresp) as ->.
      destruct Hresp as (_ & _ & Hcode). rewrite Hcode in Hres.
      now injection Hres.
  - intros code resp Hresp Hcode.
    pose proof (request_answered _ _ _ _ _ _ _ _ _ _ _ Hrun Hresp) as ->.
    destruct Hresp as (_ & _ & <-).
    apply Z.eqb_neq in Hcode. rewrite Hcode in Hres. now injection Hres.
  - destruct res as [resp | e | resp e].
    + destruct (negb _); injection Hres as <-; [right | left]; eauto.
    + injection Hres as <-. right. eauto.
    + injection Hres as <-. right. eauto.
Qed.

Lemma Subscribe_outcome_witness :
  exists resp,
    answered exampleWorld
      (world_of (run createdEnv (Subscribe createdEnv "https://app.example/notify")
                   freshClient exampleWorld))
      StatusCreated resp.
Proof.
  apply (proj1 (proj1 (proj2
    (Subscribe_outcome createdEnv "https://app.example/notify"
       freshClient exampleWorld (Some zeroServer, None)
       (client_of (run createdEnv (Subscribe createdEnv "https://app.example/notify")
                     freshClient exampleWorld))
       (world_of (run createdEnv (Subscribe createdEnv "https://app.example/notify")
                    freshClient exampleWorld))
       eq_refl)))).
  reflexivity.
Defined.

(** ** GetDevice and GetDevices *)

(** X4: GetDevice sends GET, without a body, to the device's path.  On an
    answer with status 200 it returns the device decoded from the body,
    bound to the client, or the decoder's error and no device; any other
    status gives no device and the error that names the status.  A device
    is returned only with a nil error. *)
Theorem GetDevice_outcome {Info : Type} (decode : string -> Info * option error)
    (E : Env) (deviceID : string) (cl : Client) (w : World)
    (out : option (Device Info) * option error) (cl' : Client) (w' : World) :
  run E (GetDevice decode E deviceID) cl w = Some (out, cl', w') ->
  (forall t r, Sent ByDispatch t r ∈ since w w' ->
     sent_as http.MethodGet
       (URL (cfg cl) +:+ ("/iocm/app/dm/v1.1.0/devices/" +:+ deviceID))
       None (AppID (cfg cl)) (token cl') r)
  /\ (forall resp, answered w w' http.StatusOK resp ->
        out = match decode (http.RespBody resp) with
              | (_, Some err) => (None, Some err)
              | (fields, None) =>
                  (Some {| client := thisClient; info := fields |}, None)
              end)
  /\ (forall code resp, answered w w' code resp -> code <> http.StatusOK ->
        out = (None, Some (invalidResponseCode resp)))
  /\ (forall d, fst out = Some d ->
        snd out = None /\ client d = thisClient
        /\ exists resp, answered w w' http.StatusOK resp
                        /\ decode (http.RespBody resp) = (info d, None)).
Proof.
  unfold GetDevice. intros Hrun.
  apply run_bind_pure in Hrun as (res & Hrun & Hres).
  2:{ intros [resp | e | resp e]; try (now eexists).
      destruct (negb _); [now eexists|].
      destruct (decode (http.RespBody resp)) as [fields [e|]]; now eexists. }
  split; [|split; [|split]].
  - intros t r Hin. exact (request_primary E _ _ _ _ _ _ _ _ t r Hrun Hin).
  - intros resp Hresp.
    pose proof (request_answered _ _ _ _ _ _ _ _ _ _ _ Hrun Hresp) as ->.
    destruct Hresp as (_ & _ & Hcode). rewrite Hcode in Hres.
    cbn [Z.eqb negb] in Hres.
    destruct (decode (http.RespBody resp)) as [fields [e|]];
      now injection Hres.
  - intros code resp Hresp Hcode.
    pose proof (request_answered _ _ _ _ _ _ _ _ _ _ _ Hrun Hresp) as ->.
    destruct Hresp as (_ & _ & <-).
    apply Z.eqb_neq in Hcode. rewrite Hcode in Hres. now injection Hres.
  - intros d Hd. destruct res as [resp | e | resp e];
      try (injection Hres as <-; discriminate).
    destruct (http.StatusCode resp =? http.StatusOK) eqn:Hcode;
      [|injection Hres as <-; discriminate].
    apply Z.eqb_eq in Hcode. cbn [negb] in Hres.
    destruct (decode (http.RespBody resp)) as [fields [e|]] eqn:Hdec;
      injection Hres as <-; [discriminate|].
    injection Hd as <-. repeat split.
    exists resp. split; [|exact Hdec].
    rewrite <- Hcode. now apply request_responded in Hrun.
Qed.

Lemma GetDevice_outcome_witness :
  run hourEnv (GetDevice textDevice hourEnv "d1") freshClient exampleWorld
  <> None
  /\ (Some {| client := thisClient; info := "{}" |}, None)
     = match textDevice "{}" with
       | (_, Some err) => (None, Some err)
       | (fields, None) =>
           (Some {| client := thisClient; info := fields |}, None)
       end.
Proof.
  split; [discriminate|].
  apply (proj1 (proj2
    (GetDevice_outcome textDevice hourEnv "d1" freshClient exampleWorld
       (Some {| client := thisClient; info := "{}" |}, None)
       (client_of (run hourEnv (GetDevice textDevice hourEnv "d1")
                     freshClient exampleWorld))
       (world_of (run hourEnv (GetDevice textDevice hourEnv "d1")
                    freshClient exampleWorld))
       eq_refl))
    {| http.StatusCode := 200; http.Status := "200 OK"; http.RespBody := "{}" |}).
  exists (1002 * Second). split; reflexivity.
Defined.

Lemma bindDevices_map {Info : Type} (devs : list (Device Info)) :
  bindDevices devs
  = map (fun dev => {| client := thisClient; info := info dev |}) devs.
Proof.
  unfold bindDevices.
  enough (H : forall acc,
             foldl (fun retdevs dev =>
                      retdevs ++ [{| client := thisClient; info := info dev |}])
                   acc devs
             = acc ++ map (fun dev => {| client := thisClient; info := info dev |})
                          devs) by apply (H []).
  induction devs as [|dev devs IH]; intros acc; cbn [foldl map].
  - now rewrite app_nil_r.
  - now rewrite IH, <- app_assoc.
Qed.

(** X5: GetDevices sends GET, without a body, to the URL made of the
    configured base and the query string of its argument.  On an answer with
    status 200 whose body decodes, it returns the devices of the page, as
    many and in the same order, each with the fields it had and bound to the
    client, and a nil error (an empty page gives no device and no error).
    Every device it returns is bound to the client, and with an error it
    returns no device. *)
Theorem GetDevices_outcome {Info : Type}
    (decode : string -> deviceResponse.t Info * option error)
    (E : Env) (dev : GetDevicesStruct) (cl : Client) (w : World)
    (out : list (Device Info) * option error) (cl' : Client) (w' : World) :
  run E (GetDevices decode E dev) cl w = Some (out, cl', w') ->
  (forall t r, Sent ByDispatch t r ∈ since w w' ->
     sent_as http.MethodGet
       (URL (cfg cl) +:+ getQueryStringForDeviceGet dev)
       None (AppID (cfg cl)) (token cl') r)
  /\ (forall resp d, answered w w' http.StatusOK resp ->
        decode (http.RespBody resp) = (d, None) ->
        snd out = None
        /\ map info (fst out) = map info (deviceResponse.Devices d))
  /\ (forall code resp, answered w w' code resp -> code <> http.StatusOK ->
        out = ([], Some (invalidResponseCode resp)))
  /\ Forall (fun d => client d = thisClient) (fst out)
  /\ (snd out <> None -> fst out = []).
Proof.
  unfold GetDevices. intros Hrun.
  apply run_bind_pure in Hrun as (res & Hrun & Hres).
  2:{ intros [resp | e | resp e]; try (now eexists).
      destruct (negb _); [now eexists|].
      destruct (decode (http.RespBody resp)) as [d [e|]]; now eexists. }
  split; [|split; [|split; [|split]]].
  - intros t r Hin. exact (request_primary E _ _ _ _ _ _ _ _ t r Hrun Hin).
  - intros resp d Hresp Hdec.
    pose proof (request_answered _ _ _ _ _ _ _ _ _ _ _ Hrun Hresp) as ->.
    destruct Hresp as (_ & _ & Hcode). rewrite Hcode, Hdec in Hres.
    cbn [Z.eqb negb] in Hres. injection Hres as <-. cbn [fst snd].
    split; [reflexivity|].
    rewrite bindDevices_map, map_map. reflexivity.
  - intros code resp Hresp Hcode.
    pose proof (request_answered _ _ _ _ _ _ _ _ _ _ _ Hrun Hresp) as ->.
    destruct Hresp as (_ & _ & <-).
    apply Z.eqb_neq in Hcode. rewrite Hcode in Hres. now injection Hres.
  - destruct res as [resp | e | resp e];
      try (injection Hres as <-; constructor).
    destruct (negb _); [injection Hres as <-; constructor|].
    destruct (decode (http.RespBody resp)) as [d [e|]];
      injection Hres as <-; [constructor|].
    cbn [fst]. rewrite bindDevices_map.
    induction (deviceResponse.Devices d) as [|dv dvs IH]; cbn [map];
      constructor; [reflexivity | exact IH].
  - destruct res as [resp | e | resp e];
      try (injection Hres as <-; reflexivity).
    destruct (negb _); [injection Hres as <-; reflexivity|].
    destruct (decode (http.RespBody resp)) as [d [e|]];
      injection Hres as <-; [reflexivity|].
    cbn [snd]. congruence.
Qed.

Lemma GetDevices_outcome_witness :
  map info
    [ {| client := thisClient; info := "d1" |};
      {| client := thisClient; info := "d2" |} ]
  = map info (deviceResponse.Devices (fst (twoDevices "{}"))).
Proof.
  refine (proj2 (proj1 (proj2
    (GetDevices_outcome twoDevices hourEnv zeroGetDevices freshClient exampleWorld
       ([ {| client := thisClient; info := "d1" |};
          {| client := thisClient; info := "d2" |} ], None)
       (client_of (run hourEnv (GetDevices twoDevices hourEnv zeroGetDevices)
                     freshClient exampleWorld))
       (world_of (run hourEnv (GetDevices twoDevices hourEnv zeroGetDevices)
                    freshClient exampleWorld))
       eq_refl))
    {| http.StatusCode := 200; http.Status := "200 OK"; http.RespBody := "{}" |}
    (fst (twoDevices "{}")) _ eq_refl)).
  exists (1002 * Second). split; reflexivity.
Defined.

(** ** RegisterDevice, once more *)

(** X6: RegisterDevice sends POST to the registration path with the
    application identifier as appId.  On an answer with status 200 it returns
    the reply decoded from the body, or the decoder's error and no reply; any
    other status gives no reply and the error that names the status.  It
    never returns both a reply and an error, nor neither. *)
Theorem RegisterDevice_outcome (E : Env) (imei : string) (timeoutV : list N)
    (cl : Client) (w : World)
    (out : option RegistrationReply * option error) (cl' : Client) (w' : World) :
  run E (RegisterDevice E imei timeoutV) cl w = Some (out, cl', w') ->
  (forall t r, Sent ByDispatch t r ∈ since w w' ->
     http.Method r = http.MethodPost
     /\ http.URL r = URL (cfg cl)
                     +:+ ("/iocm/app/reg/v1.2.0/devices?appId=" +:+ AppID (cfg cl))
     /\ http.Hdr r = dispatchHeader (AppID (cfg cl)) (token cl'))
  /\ (forall resp, answered w w' http.StatusOK resp ->
        out = match decodeRegistrationReply E (http.RespBody resp) with
              | (_, Some err) => (None, Some err)
              | (d, None) => (Some d, None)
              end)
  /\ (forall code resp, answered w w' code resp -> code <> http.StatusOK ->
        out = (None, Some (invalidResponseCode resp)))
  /\ ((exists d, out = (Some d, None)) \/ (exists err, out = (None, Some err))).
Proof.
  unfold RegisterDevice. run_step.
  cbn [regDevice.Marshal regDevice.VerifyCode regDevice.NodeID
       regDevice.Timeout regDevice.EndUserID].
  intros Hrun.
  apply run_bind_pure in Hrun as (res & Hrun & Hres).
  2:{ intros [resp | e | resp e]; try (now eexists).
      destruct (negb _); [now eexists|].
      destruct (decodeRegistrationReply E (http.RespBody resp)) as [d [e|]];
        now eexists. }
  split; [|split; [|split]].
  - intros t r Hin.
    destruct (request_primary E _ _ _ _ _ _ _ _ t r Hrun Hin)
      as (Hm & Hu & _ & Hh).
    now repeat split.
  - intros resp Hresp.
    pose proof (request_answered _ _ _ _ _ _ _ _ _ _ _ Hrun Hresp) as ->.
    destruct Hresp as (_ & _ & Hcode). rewrite Hcode in Hres.
    cbn [Z.eqb negb] in Hres.
    destruct (decodeRegistrationReply E (http.RespBody resp)) as [d [e|]];
      now injection Hres.
  - intros code resp Hresp Hcode.
    pose proof (request_answered _ _ _ _ _ _ _ _ _ _ _ Hrun Hresp) as ->.
    destruct Hresp as (_ & _ & <-).
    apply Z.eqb_neq in Hcode. rewrite Hcode in Hres. now injection Hres.
  - destruct res as [resp | e | resp e];
      try (injection Hres as <-; right; eauto).
    destruct (negb _); [injection Hres as <-; right; eauto|].
    destruct (decodeRegistrationReply E (http.RespBody resp)) as [d [e|]];
      injection Hres as <-; [right | left]; eauto.
Qed.

Lemma RegisterDevice_outcome_witness :
  (Some {| VerifyCode := ""; DeviceID := "{}"; Timeout := 0%N; Psk := "" |},
   None)
  = match decodeRegistrationReply hourEnv "{}" with
    | (_, Some err) => (None, Some err)
    | (d, None) => (Some d, None)
    end.
Proof.
  refine (proj1 (proj2
    (RegisterDevice_outcome hourEnv "867530900000001" [7%N]
       freshClient exampleWorld
       (Some {| VerifyCode := ""; DeviceID := "{}"; Timeout := 0%N; Psk := "" |},
        None)
       (client_of (run hourEnv (RegisterDevice hourEnv "867530900000001" [7%N])
                     freshClient exampleWorld))
       (world_of (run hourEnv (RegisterDevice hourEnv "867530900000001" [7%N])
                    freshClient exampleWorld))
       eq_refl))
    {| http.StatusCode := 200; http.Status := "200 OK"; http.RespBody := "{}" |}
    _).
  exists (1002 * Second). split; reflexivity.
Defined.

(** ** Dispatch, once more *)


(** X8: the first dispatch call on a client that NewClient has just
    constructed, at any clock reading not before the zero time, finds no
    valid session: it returns after exactly one login, and the login is the
    first thing it puts on the wire. *)
Theorem fresh_client_logs_in (p : tls.Platform) (conf : Config)
    (cl : Client) (e : option error) (E : Env) (req : http.Request) (w : World) :
  NewClient p conf = (Some cl, e) ->
  0 <= now w ->
  exists res cl' w',
    run E (doRequest E req) cl w = Some (res, cl', w')
    /\ logins (since w w') = 1%nat
    /\ exists r, head (since w w') = Some (Sent ByLogin (now w) r).
Proof.
  unfold NewClient.
  destruct (tls.LoadX509KeyPair p (CertFile conf) (CertKeyFile conf))
    as [cert [err|]]; [discriminate|].
  intros [= <- _] Hnow.
  rewrite doRequest_run by reflexivity.
  destruct (dispatch E req _ w) as [[res cl'] w'] eqn:Hdisp.
  exists res, cl', w'. split; [reflexivity|].
  apply dispatch_Dispatched in Hdisp.
  destruct Hdisp as [d res0 Hstale Hdo | d lres err Hstale Hlogin Hgrant
                    | d lres tok seconds w1 d' res0 Hstale Hlogin Hgrant -> Hdo];
    unfold since, exchanged; cbn [wire now cfg];
    rewrite <- ?app_assoc, ?drop_app_length; cbn [app head].
  - unfold stale, Time_Before, Time_Add, Minute, Second in Hstale.
    cbn [tokenExpires] in Hstale. apply Z.ltb_ge in Hstale. lia.
  - split; [reflexivity | now eexists].
  - split; [reflexivity | now eexists].
Qed.

Lemma fresh_client_logs_in_witness :
  exists res cl' w',
    run hourEnv (doRequest hourEnv exampleRequest) builtClient exampleWorld
    = Some (res, cl', w')
    /\ logins (since exampleWorld w') = 1%nat
    /\ exists r,
         head (since exampleWorld w') = Some (Sent ByLogin (now exampleWorld) r).
Proof.
  apply (fresh_client_logs_in examplePlatform exampleConfig builtClient None
           hourEnv exampleRequest exampleWorld).
  - reflexivity.
  - discriminate.
Defined.

(** ** The query string, once more *)

(** X9: the values of the query string are written as they are, without
    escaping: a gateway identifier that ends in what a nodeType parameter
    would add gives the same string as the two parameters set apart. *)
Theorem getQueryString_not_escaped (dev : GetDevicesStruct)
    (gatewayID nodeType : string) :
  gatewayID <> "" ->
  nodeType <> "" ->
  getQueryStringForDeviceGet (withGateway gatewayID nodeType dev)
  = getQueryStringForDeviceGet
      (withGateway (gatewayID +:+ "&nodeType=" +:+ nodeType) "" dev).
Proof.
  intros Hg Hn.
  rewrite !getQueryString_render.
  f_equal. f_equal. f_equal.
  unfold queryParams, renderParams, renderParam, opt_string, withGateway.
  cbn [fst snd GatewayID NodeType PageNo PageSize StartTime EndTime Status].
  destruct gatewayID as [|a g]; [contradiction|].
  destruct nodeType as [|b n]; [contradiction|].
  cbn [nonempty String.append].
  change (String a g +:+ "&nodeType=" +:+ String b n)
    with (String a (g +:+ "&nodeType=" +:+ String b n)).
  cbn [nonempty].
  change (String a (g +:+ "&nodeType=" +:+ String b n))
    with (String a g +:+ ("&nodeType=" +:+ String b n)).
  repeat rewrite app_assoc_string. reflexivity.
Qed.

Lemma getQueryString_not_escaped_witness :
  getQueryStringForDeviceGet (withGateway "gw1" "sensor" zeroGetDevices)
  = getQueryStringForDeviceGet
      (withGateway ("gw1" +:+ "&nodeType=" +:+ "sensor") "" zeroGetDevices).
Proof.
  apply (getQueryString_not_escaped zeroGetDevices "gw1" "sensor");
    discriminate.
Defined.

(** ** Concurrent dispatch calls, once more *)





Lemma Crit_not_locks_first {A : Type} (p : Prog A) :
  Crit p -> locks_first p = false.
Proof.
  intros [k _ | X act k Hact _]; [reflexivity|].
  now destruct act.
Qed.

Lemma inside_not_outside (E : Env) (req : http.Request) (t : Thread http.Result) :
  inside t -> ~ outside E req t.
Proof.
  intros Hin [-> | [r Hr]].
  - cbn [inside] in Hin. apply Crit_not_locks_first in Hin.
    destruct (doRequest_entry E req) as (k & Hk & _).
    rewrite Hk in Hin. discriminate.
  - now rewrite (inside_not_returned _ Hin) in Hr.
Qed.

(** X11: mutual exclusion.  In every state that an interleaving of N
    concurrent dispatch calls reaches, of any two goroutines at least one
    has not started its call or has returned from it; while the mutex is
    free all of them are so, and while it is held exactly one goroutine is
    in between. *)
Theorem concurrent_mutual_exclusion (E : Env) (reqs : list http.Request)
    (cl : Client) (w : World) (sched : list nat) (s : System) :
  reqLock cl = false ->
  interleave E sched (concurrent E reqs cl w) = Some s ->
  (forall i j ri rj ti tj,
     i <> j ->
     reqs !! i = Some ri -> reqs !! j = Some rj ->
     threads s !! i = Some ti -> threads s !! j = Some tj ->
     outside E ri ti \/ outside E rj tj)
  /\ (reqLock (shared s) = false ->
      forall i ri ti, reqs !! i = Some ri -> threads s !! i = Some ti ->
                      outside E ri ti)
  /\ (reqLock (shared s) = true ->
      exists i ri ti, reqs !! i = Some ri /\ threads s !! i = Some ti
                      /\ ~ outside E ri ti).
Proof.
  intros Hfree Hrun.
  pose proof (interleave_view E reqs cl w sched _ s
                (concurrent_view E reqs cl w Hfree) Hrun)
    as (order & ress & clq & wq & HS & HP).
  assert (Hidle : forall i ri ti,
            threads s !! i = Some ti ->
            (i ∉ order -> threads s !! i = Some (Running (doRequest E ri))) ->
            outside E ri ti).
  { intros i ri ti Hti Hstart.
    destruct (decide (i ∈ order)) as [[j Hj]%list_elem_of_lookup | Hni].
    - destruct (ser_returned _ _ _ _ _ _ _ _ _ HS j i Hj) as (r & _ & Hti').
      rewrite Hti in Hti'. injection Hti' as ->. right. now exists r.
    - rewrite (Hstart Hni) in Hti. injection Hti as <-. now left. }
  destruct HP as [Hcl Hw Hstart
                 | i0 req0 t0 Hni0 Hreq0 Ht0 Hin0 Hheld _ _ Hothers].
  - split; [|split].
    + intros i j ri rj ti tj _ Hri _ Hti _. left.
      apply (Hidle i ri ti Hti). intros Hni. now apply Hstart.
    + intros _ i ri ti Hri Hti.
      apply (Hidle i ri ti Hti). intros Hni. now apply Hstart.
    + rewrite Hcl, (ser_free _ _ _ _ _ _ _ _ _ HS). discriminate.
  - split; [|split].
    + intros i j ri rj ti tj Hne Hri Hrj Hti Htj.
      destruct (decide (i = i0)) as [-> | Hi].
      * right. apply (Hidle j rj tj Htj). intros Hni.
        apply Hothers; auto.
      * left. apply (Hidle i ri ti Hti). intros Hni.
        apply Hothers; auto.
    + rewrite Hheld. discriminate.
    + intros _. exists i0, req0, t0. repeat split; try assumption.
      now apply inside_not_outside.
Qed.

Lemma concurrent_mutual_exclusion_witness :
  reqLock (shared bothReturned) = false
  /\ outside hourEnv exampleRequest
       (Running (Ret (respond 200 "200 OK" "{}"))).
Proof.
  split; [reflexivity|].
  assert (Hrun : interleave hourEnv (inTurn 13 8)
                   (concurrent hourEnv [exampleRequest; exampleRequest]
                      freshClient exampleWorld)
                 = Some bothReturned) by (vm_compute; reflexivity).
  apply (proj1 (proj2
    (concurrent_mutual_exclusion hourEnv [exampleRequest; exampleRequest]
       freshClient exampleWorld (inTurn 13 8) bothReturned eq_refl Hrun))
    ltac:(reflexivity) 1%nat exampleRequest).
  - reflexivity.
  - vm_compute. reflexivity.
Defined.

(** ** How long the calls take *)

Lemma Within_le {A : Type} (n m : nat) (p : Prog A) :
  Within n p -> (n <= m)%nat -> Within m p.
Proof.
  intros H. revert m.
  induction H as [n a | n o req k _ IH | n X act k Hact _ IH]; intros m Hle.
  - constructor.
  - destruct m as [|[|m]]; try lia. constructor. intros x. apply IH. lia.
  - destruct m as [|m]; try lia. constructor; [assumption|].
    intros x. apply IH. lia.
Qed.

Lemma Within_bind {A B : Type} (n m : nat) (p : Prog A) (f : A -> Prog B) :
  Within n p -> (forall a, Within m (f a)) -> Within (n + m) (bind p f).
Proof.
  intros H Hf.
  induction H as [n a | n o req k _ IH | n X act k Hact _ IH]; cbn [bind].
  - apply Within_le with (n := m); [apply Hf | lia].
  - cbn [Nat.add]. constructor. exact IH.
  - cbn [Nat.add]. constructor; [assumption | exact IH].
Qed.

Lemma Within_perform {X : Type} (act : Action X) :
  calling act = false -> Within 1 (perform act).
Proof. intros Hact. constructor; [assumption | constructor]. Qed.

Lemma Within_Login (E : Env) : Within 5 (Login E).
Proof.
  unfold Login.
  apply (Within_bind 1 4); [now apply Within_perform | intros conf].
  apply (Within_bind 2 2); [constructor; constructor | intros res].
  destruct res as [resp | err | resp err]; try constructor.
  destruct (negb _); [constructor|].
  destruct (decodeLogin E (http.RespBody resp)) as [[tok seconds] [err|]];
    [constructor|].
  apply (Within_bind 1 1); [now apply Within_perform | intros t].
  apply (Within_bind 1 0); [now apply Within_perform | constructor].
Qed.

(** A dispatch call takes at most thirteen steps. *)
Lemma Within_doRequest (E : Env) (req : http.Request) :
  Within 13 (doRequest E req).
Proof.
  unfold doRequest, defer.
  apply (Within_bind 1 12); [now apply Within_perform | intros _].
  apply (Within_bind 11 1);
    [|intros r; constructor; [reflexivity | constructor]].
  apply (Within_bind 1 10); [now apply Within_perform | intros expires].
  apply (Within_bind 1 9); [now apply Within_perform | intros t].
  apply (Within_bind 5 4).
  - destruct (Time_Before _ _); [apply Within_Login | constructor].
  - intros [err|]; [constructor|].
    apply (Within_bind 1 3); [now apply Within_perform | intros conf].
    apply (Within_bind 1 2); [now apply Within_perform | intros tok].
    constructor. constructor.
Qed.

(** A step uses up at least one of the steps a goroutine has left. *)
Lemma thread_step_within (E : Env) {A : Type} (t t' : Thread A)
    (cl cl' : Client) (w w' : World) (n : nat) :
  thread_within n t ->
  thread_step E t cl w = Some (t', cl', w') ->
  exists m, thread_within m t' /\ (S m <= n)%nat.
Proof.
  destruct t as [p | o ready res k]; cbn [thread_within].
  - intros [n0 a | n0 o req k Hk | n0 X act k Hact Hk]; cbn [thread_step].
    + discriminate.
    + destruct (remote E w req) as [d res]. intros [= <- <- <-].
      exists (S n0). split; [|lia]. cbn [thread_within]. now exists n0.
    + destruct act; try discriminate;
        (destruct (exec E _ cl w) as [[[x cl1] w1]|]; cbn [resume];
         [|discriminate]);
        intros [= <- <- <-]; exists n0; (split; [apply Hk | lia]).
  - intros (m & -> & Hk). cbn [thread_step]. intros [= <- <- <-].
    exists m. split; [apply Hk | lia].
Qed.

Lemma sum_list_insert (bs : list nat) (i b b' : nat) :
  bs !! i = Some b ->
  (sum_list (<[i := b']> bs) + b = sum_list bs + b')%nat.
Proof.
  revert i. induction bs as [|b0 bs IH]; intros [|i]; simpl; try discriminate.
  - intros [= ->]. lia.
  - intros Hi. specialize (IH i Hi). lia.
Qed.

Lemma sys_step_within (E : Env) (i : nat) (s s' : System) (bs : list nat) :
  Forall2 (fun t b => thread_within b t) (threads s) bs ->
  sys_step E i s = Some s' ->
  exists bs', Forall2 (fun t b => thread_within b t) (threads s') bs'
              /\ (S (sum_list bs') <= sum_list bs)%nat.
Proof.
  intros Hall. unfold sys_step.
  destruct (threads s !! i) as [t|] eqn:Ht; [|discriminate].
  destruct (thread_step E t (shared s) (world s)) as [[[t' cl'] w']|] eqn:Hstep;
    [|discriminate].
  intros [= <-]. cbn [threads].
  destruct (Forall2_lookup_l _ _ _ _ _ Hall Ht) as (b & Hb & Hwithin).
  destruct (thread_step_within E _ _ _ _ _ _ _ Hwithin Hstep) as (m & Hm & Hle).
  exists (<[i := m]> bs). split.
  - now apply Forall2_insert.
  - pose proof (sum_list_insert bs i b m Hb). lia.
Qed.

Lemma interleave_within (E : Env) (sched : list nat) (s s' : System)
    (bs : list nat) :
  Forall2 (fun t b => thread_within b t) (threads s) bs ->
  interleave E sched s = Some s' ->
  (length sched <= sum_list bs)%nat.
Proof.
  revert s bs. induction sched as [|i sched IH]; intros s bs Hall;
    cbn [interleave length]; [lia|].
  destruct (sys_step E i s) as [s1|] eqn:Hstep; [|discriminate].
  intros Hrun.
  destruct (sys_step_within E i s s1 bs Hall Hstep) as (bs' & Hall' & Hle).
  specialize (IH s1 bs' Hall' Hrun). lia.
Qed.

(** X12: N concurrent dispatch calls take at most 13 N steps in all,
    whatever the interleaving and whatever the service answers: no call
    retries or loops, and a schedule that asks for more steps cannot be
    followed. *)
Theorem concurrent_bounded (E : Env) (reqs : list http.Request)
    (cl : Client) (w : World) (sched : list nat) (s : System) :
  interleave E sched (concurrent E reqs cl w) = Some s ->
  (length sched <= 13 * length reqs)%nat.
Proof.
  intros Hrun.
  assert (Hall : Forall2 (fun t b => thread_within b t)
                   (threads (concurrent E reqs cl w))
                   (replicate (length reqs) 13%nat)).
  { clear Hrun. cbn [concurrent threads].
    induction reqs as [|req reqs IH]; cbn [map length replicate];
      [constructor|].
    constructor; [apply Within_doRequest | exact IH]. }
  pose proof (interleave_within E sched _ s _ Hall Hrun) as Hle.
  enough (Hsum : forall n, sum_list (replicate n 13%nat) = (13 * n)%nat)
    by (rewrite Hsum in Hle; exact Hle).
  induction n as [|n IHn]; [reflexivity|].
  change (sum_list (replicate (S n) 13%nat))
    with (13 + sum_list (replicate n 13%nat))%nat.
  rewrite IHn. lia.
Qed.

Lemma concurrent_bounded_witness :
  (length (inTurn 13 13) <= 13 * length [exampleRequest; exampleRequest])%nat.
Proof.
  apply (concurrent_bounded shortEnv [exampleRequest; exampleRequest]
           freshClient exampleWorld (inTurn 13 13)
           (default (twoCalls shortEnv)
              (interleave shortEnv (inTurn 13 13) (twoCalls shortEnv)))).
  vm_compute. reflexivity.
Defined.

(** ** Reusing the token *)



(** ** Headers that are already there *)

(** X14: doRequest adds its headers and overwrites none: when the request
    it is given already has an Authorization value, that value stays the
    first one of the primary call, the one that Get returns, and the token
    comes after it. *)
Theorem doRequest_keeps_headers (E : Env) (req : http.Request)
    (cl : Client) (w : World) (res : http.Result) (cl' : Client) (w' : World)
    (t : Time) (r : http.Request) (v : string) (vs : list string) :
  run E (doRequest E req) cl w = Some (res, cl', w') ->
  Sent ByDispatch t r ∈ since w w' ->
  http.Values "Authorization" (http.Hdr req) = v :: vs ->
  http.Get "Authorization" (http.Hdr r) = v
  /\ http.Values "Authorization" (http.Hdr r) = v :: vs ++ [token cl'].
Proof.
  intros [_ Hd]%doRequest_Dispatched Hin Hold.
  apply (Dispatched_primary _ _ _ _ _ _ _ _ _ Hd) in Hin as [-> _].
  destruct (withHeaders_carries (AppID (cfg cl')) (token cl') req)
    as (_ & Hauth & _).
  unfold http.Get. rewrite Hauth, Hold. now split.
Qed.

Lemma doRequest_keeps_headers_witness :
  http.Get "Authorization"
    (http.Hdr (withHeaders "app-1" "T1"
                 {| http.Method := http.MethodGet;
                    http.URL := "https://iot.example/x";
                    http.Hdr := {[ "Authorization" := ["Basic abc"] ]};
                    http.Body := None |}))
  = "Basic abc"
  /\ http.Values "Authorization"
       (http.Hdr (withHeaders "app-1" "T1"
                    {| http.Method := http.MethodGet;
                       http.URL := "https://iot.example/x";
                       http.Hdr := {[ "Authorization" := ["Basic abc"] ]};
                       http.Body := None |}))
     = "Basic abc" :: [] ++ [token (set_session "T1" (4601 * Second) freshClient)].
Proof.
  pose (req := {| http.Method := http.MethodGet;
                  http.URL := "https://iot.example/x";
                  http.Hdr := {[ "Authorization" := ["Basic abc"] ]};
                  http.Body := None |}).
  pose (ran := run hourEnv (doRequest hourEnv req) freshClient exampleWorld).
  apply (doRequest_keeps_headers hourEnv req freshClient exampleWorld
           (respond 200 "200 OK" "{}")
           (set_session "T1" (4601 * Second) freshClient)
           (world_of ran) (1001 * Second)).
  - reflexivity.
  - apply list_elem_of_lookup. exists 2%nat. reflexivity.
  - reflexivity.
Defined.

(** ** Construction, once more *)

(** X15: NewClient returns a client exactly when both files can be read
    and the pair parses, and otherwise an error: never both, never neither.
    The client it returns holds the configuration given, no token, the zero
    expiry, a free mutex, and the loaded certificate as its only one. *)
Theorem NewClient_succeeds_iff (p : tls.Platform) (conf : Config) :
  let certPEM := tls.ReadFile p (CertFile conf) in
  let keyPEM := tls.ReadFile p (CertKeyFile conf) in
  let parsed := tls.X509KeyPair p (fst certPEM) (fst keyPEM) in
  ((exists cl, NewClient p conf = (Some cl, None))
   <-> snd certPEM = None /\ snd keyPEM = None /\ snd parsed = None)
  /\ ((exists cl, NewClient p conf = (Some cl, None))
      \/ (exists err, NewClient p conf = (None, Some err)))
  /\ forall cl e,
       NewClient p conf = (Some cl, e) ->
       cfg cl = conf /\ token cl = "" /\ tokenExpires cl = 0
       /\ reqLock cl = false
       /\ tls.Certificates
            (http.TLSClientConfig (http.ClientTransport (c cl)))
          = [fst parsed].
Proof.
  cbn zeta. unfold NewClient, tls.LoadX509KeyPair.
  destruct (tls.ReadFile p (CertFile conf)) as [certPEM [e1|]];
    destruct (tls.ReadFile p (CertKeyFile conf)) as [keyPEM [e2|]];
    cbn [fst snd];
    try destruct (tls.X509KeyPair p certPEM keyPEM) as [cert [e3|]];
    cbn [fst snd];
    (split; [split; [intros [cl H]; try discriminate; now repeat split
                    | intros (H1 & H2 & H3); try discriminate; now eexists]
            | split; [try (left; now eexists); right; now eexists
                     | intros cl e H; try discriminate;
                       injection H as <- <-; now repeat split]]).
Qed.

(** ** Every operation returns *)





(** ** The headers of a call made through request *)

(** X17: a primary call made through request goes, with the method given
    (GET for the empty method) and the body given, to the configured URL
    followed by the path, and carries the three headers of doRequest and no
    other: Get returns the application identifier, the token the client
    holds and application/json. *)
Theorem request_sends (E : Env) (method urlStr : string)
    (body : option http.Payload) (cl : Client) (w : World)
    (res : http.Result) (cl' : Client) (w' : World)
    (t : Time) (r : http.Request) :
  run E (request E method urlStr body) cl w = Some (res, cl', w') ->
  Sent ByDispatch t r ∈ since w w' ->
  sent_as method (URL (cfg cl) +:+ urlStr) body (AppID (cfg cl)) (token cl') r
  /\ http.Get "app_key" (http.Hdr r) = AppID (cfg cl)
  /\ http.Get "Authorization" (http.Hdr r) = token cl'
  /\ http.Get "Content-Type" (http.Hdr r) = "application/json"
  /\ dom (http.Hdr r) = {[ "App_key"; "Authorization"; "Content-Type" ]}.
Proof.
  intros Hrun Hin.
  pose proof (request_primary E _ _ _ _ _ _ _ _ t r Hrun Hin) as Hsent.
  split; [exact Hsent|].
  destruct Hsent as (_ & _ & _ & ->).
  unfold dispatchHeader, http.Get, http.Values.
  change (http.CanonicalMIMEHeaderKey "app_key") with "App_key".
  change (http.CanonicalMIMEHeaderKey "Authorization") with "Authorization".
  change (http.CanonicalMIMEHeaderKey "Content-Type") with "Content-Type".
  split; [|split; [|split]].
  - rewrite lookup_insert_ne, lookup_insert_ne, lookup_insert_eq by discriminate.
    reflexivity.
  - rewrite lookup_insert_ne, lookup_insert_eq by discriminate. reflexivity.
  - rewrite lookup_insert_eq. reflexivity.
  - rewrite !dom_insert_L, dom_empty_L. set_solver.
Qed.

Lemma request_sends_witness :
  http.Get "Authorization"
    (http.Hdr (withHeaders "app-1" "T1" exampleRequest)) = "T1".
Proof.
  pose (ran := run hourEnv
                 (request hourEnv "" "/iocm/app/dm/v1.1.0/devices/d1" None)
                 freshClient exampleWorld).
  refine (proj1 (proj2 (proj2
    (request_sends hourEnv "" "/iocm/app/dm/v1.1.0/devices/d1" None
       freshClient exampleWorld (respond 200 "200 OK" "{}")
       (set_session "T1" (4601 * Second) freshClient) (world_of ran)
       (1001 * Second) (withHeaders "app-1" "T1" exampleRequest) eq_refl _)))).
  apply list_elem_of_lookup. exists 2%nat. reflexivity.
Defined.
